(** * Rick and Morty gateway: rate limiter and upstream client

    A shallow embedding of [rate_limiter.py] (class [SimpleRateLimiter]), of
    [client.py] (class [RickAndMortyClient]) and of the routes, handlers and
    middleware of [api_service.py], with the properties of the
    specification and further properties of the code stated over it.

    Conventions of the embedding.
    - [time.time()] is an input: every call takes the clock readings it
      makes as arguments.  Readings are rationals (seconds since the epoch);
      rounding of binary floating point is not modelled.
    - The dictionary [self.requests] is a [gmap string (list Q)].
    - The network is a script of outcomes consumed one per HTTP call; the
      URLs requested and the seconds slept are logged in the world state.
    - Redis is outside the sources: what [get_cache] answers is an input
      and the calls of [set_cache] are logged. *)

From Stdlib Require Import ZArith QArith Qround Lqa Lia List Bool Ascii String.
From Stdlib Require Import DecimalString DecimalZ DecimalPos.
From stdpp Require Import base option gmap strings list fin_maps.

Local Open Scope Z_scope.
#[local] Set Warnings "-register-all".

(** ** Rational clock arithmetic *)

Module Clock.

(** [x < y] on rationals, as a boolean. *)
Definition Qltb (x y : Q) : bool := negb (Qle_bool y x).

(** Python's [x % m] on floats for [m > 0]: the remainder of the floored
    division, so the result lies in [[0, m)]. *)
Definition fmod (x m : Q) : Q := (x - m * inject_Z (Qfloor (x / m)))%Q.

End Clock.

(** ** rate_limiter.py *)

Module RateLimiter.
Import Clock.

(** [self.requests_per_minute] and [self.requests]. *)
Record SimpleRateLimiter := mkLimiter {
  requests_per_minute : Z;
  requests : gmap string (list Q)
}.

(** [SimpleRateLimiter(requests_per_minute)]; the default is 30. *)
Definition init (rpm : Z) : SimpleRateLimiter := mkLimiter rpm ∅.
Definition default_limit : Z := 30.

(** The comprehension of line 17:
    [[ts for ts in self.requests[ip] if current_time - ts < 60]]. *)
Definition prune (current_time : Q) (timestamps : list Q) : list Q :=
  List.filter (fun ts => Qltb (current_time - ts) 60) timestamps.

(** Python's [max] over a non-empty list [x :: l]: the running maximum is
    replaced only by a strictly greater item. *)
Fixpoint py_max (x : Q) (l : list Q) : Q :=
  match l with
  | [] => x
  | y :: l' => py_max (if Qltb x y then y else x) l'
  end.

(** The test of line 38:
    [not timestamps or current_time - max(timestamps) > 300]. *)
Definition idle (current_time : Q) (timestamps : list Q) : bool :=
  match timestamps with
  | [] => true
  | t :: ts => Qltb 300 (current_time - py_max t ts)
  end.

(** [_cleanup]: [current_time] is the clock reading made inside it.  The
    keys to remove are collected first and deleted afterwards, so the
    result is the dictionary without the idle entries. *)
Definition _cleanup (current_time : Q) (self : SimpleRateLimiter)
  : SimpleRateLimiter :=
  mkLimiter (requests_per_minute self)
    (filter (fun kv => idle current_time kv.2 = false) (requests self)).

(** [is_rate_limited]: [current_time] is the reading of line 10 and
    [cleanup_time] the one [_cleanup] makes when it is called. *)
Definition is_rate_limited (current_time cleanup_time : Q) (ip : string)
    (self : SimpleRateLimiter) : bool * SimpleRateLimiter :=
  let timestamps := prune current_time (default [] (requests self !! ip)) in
  if (requests_per_minute self <=? Z.of_nat (length timestamps))%Z then
    (true, mkLimiter (requests_per_minute self)
             (<[ip := timestamps]> (requests self)))
  else
    let self' := mkLimiter (requests_per_minute self)
                   (<[ip := timestamps ++ [current_time]]> (requests self)) in
    if Qltb (fmod current_time 300) 1
    then (false, _cleanup cleanup_time self')
    else (false, self').

(** The specification's [Admit]: the request is allowed when the limiter
    does not report it as limited. *)
Definition Admit (current_time cleanup_time : Q) (ip : string)
    (self : SimpleRateLimiter) : bool * SimpleRateLimiter :=
  let r := is_rate_limited current_time cleanup_time ip self in
  (negb r.1, r.2).

(** A run of calls for one key, all made at clock reading [t]; [cs] lists
    the readings [_cleanup] would make, one per call.  Returns the answers
    in call order and the final state. *)
Fixpoint calls_at (t : Q) (ip : string) (cs : list Q)
    (self : SimpleRateLimiter) : list bool * SimpleRateLimiter :=
  match cs with
  | [] => ([], self)
  | c :: cs' =>
      let r := Admit t c ip self in
      let rs := calls_at t ip cs' r.2 in
      (r.1 :: rs.1, rs.2)
  end.

(** A trace of calls [(current_time, cleanup_time, ip)] in order. *)
Fixpoint run (trace : list (Q * Q * string)) (self : SimpleRateLimiter)
  : SimpleRateLimiter :=
  match trace with
  | [] => self
  | (t, c, ip) :: trace' => run trace' (is_rate_limited t c ip self).2
  end.

End RateLimiter.

(** ** Python values and string operations used by client.py *)

Module Py.
Local Open Scope string_scope.

(** Parsed JSON, as [response.json()] returns it.  [JNull] is Python's
    [None]; an object keeps its fields in order and [get] takes the first
    binding of a key.  Numbers are integers. *)
Inductive json :=
| JNull
| JBool (b : bool)
| JNum (n : Z)
| JStr (s : string)
| JArr (items : list json)
| JObj (fields : list (string * json)).

(** The exceptions that can leave the client. *)
Inductive client_error :=
| ConnectionFailed      (* aiohttp.ClientError raised by session.get *)
| Timeout               (* asyncio.TimeoutError *)
| ContentTypeError.     (* aiohttp.ContentTypeError raised by response.json() *)

Inductive exn :=
| NotFoundError (resource_type : string) (resource_id : option Z)
| RateLimitError (retry_after : Z)
| ServerError
| APIError (status_code : Z) (message : json)
| ClientError (e : client_error)
| RuntimeError
| ValueError
| TypeError
| AttributeError.

(** Truth value of a Python object in [if x:] and [while x:]. *)
Definition truthy (v : json) : bool :=
  match v with
  | JNull => false
  | JBool b => b
  | JNum n => negb (n =? 0)%Z
  | JStr s => negb (String.eqb s "")
  | JArr l => match l with [] => false | _ => true end
  | JObj f => match f with [] => false | _ => true end
  end.

(** [key in fields] and [fields.get(key)] on a dictionary. *)
Fixpoint assoc {A} (key : string) (fields : list (string * A)) : option A :=
  match fields with
  | [] => None
  | (k, v) :: rest => if String.eqb k key then Some v else assoc key rest
  end.

(** [sub in s] on strings. *)
Fixpoint contains (sub s : string) : bool :=
  match s with
  | "" => String.eqb sub ""
  | String _ s' => String.prefix sub s || contains sub s'
  end.

Definition is_JStr (key : string) (v : json) : bool :=
  match v with JStr s => String.eqb s key | _ => false end.

(** [key in data]; [None] stands for the TypeError raised on a value that
    is not a container. *)
Definition py_in (key : string) (data : json) : option bool :=
  match data with
  | JObj fields => Some (match assoc key fields with Some _ => true | None => false end)
  | JArr items => Some (existsb (is_JStr key) items)
  | JStr s => Some (contains key s)
  | JNull | JBool _ | JNum _ => None
  end.

(** [data.get(key, dflt)]; [None] stands for the AttributeError raised on a
    value that is not a dictionary. *)
Definition py_get (data : json) (key : string) (dflt : json) : option json :=
  match data with
  | JObj fields => Some (default dflt (assoc key fields))
  | _ => None
  end.

Fixpoint chars (s : string) : list string :=
  match s with
  | "" => []
  | String c s' => String c "" :: chars s'
  end.

(** [acc.extend(v)]: iterating a list gives its items, a dictionary its
    keys, a string its characters; [None] stands for the TypeError on a
    value that is not iterable. *)
Definition py_extend (acc : list json) (v : json) : option (list json) :=
  match v with
  | JArr items => Some (acc ++ items)%list
  | JObj fields => Some (acc ++ map (fun kv => JStr kv.1) fields)%list
  | JStr s => Some (acc ++ map JStr (chars s))%list
  | JNull | JBool _ | JNum _ => None
  end.

(** [s.replace(old, new)] for a non-empty [old]: occurrences are replaced
    from the left and do not overlap.  [skip] counts the characters of the
    occurrence just replaced that are still to be dropped. *)
Fixpoint replace_from (old new : string) (skip : nat) (s : string) : string :=
  match s with
  | "" => ""
  | String c s' =>
      match skip with
      | S k => replace_from old new k s'
      | O => if String.prefix old s
             then new ++ replace_from old new (String.length old - 1) s'
             else String c (replace_from old new 0 s')
      end
  end.

(** [s.replace("", new)] puts [new] before every character and at the end. *)
Fixpoint intersperse (new s : string) : string :=
  match s with
  | "" => new
  | String c s' => new ++ String c (intersperse new s')
  end.

Definition replace (old new s : string) : string :=
  if String.eqb old "" then intersperse new s else replace_from old new 0 s.

(** [s.split(sep)] for a one-character separator. *)
Fixpoint split (sep : ascii) (s : string) : list string :=
  match s with
  | "" => [""]
  | String c s' =>
      if Ascii.eqb c sep then "" :: split sep s'
      else match split sep s' with
           | [] => [String c ""]
           | h :: t => String c h :: t
           end
  end.

(** [sep.join(l)]. *)
Definition join (sep : string) (l : list string) : string := String.concat sep l.

Definition is_digit (c : ascii) : bool :=
  match DecimalString.uint_of_char c (Some Decimal.Nil) with
  | Some _ => true
  | None => false
  end.

Fixpoint all_digits (s : string) : bool :=
  match s with
  | "" => true
  | String c s' => is_digit c && all_digits s'
  end.

(** [s.isdigit()] on ASCII text: non-empty and made of decimal digits. *)
Definition isdigit (s : string) : bool :=
  match s with
  | "" => false
  | _ => all_digits s
  end.

(** The ASCII characters [int()] strips as white space. *)
Definition is_space (c : ascii) : bool :=
  let n := nat_of_ascii c in
  ((9 <=? n) && (n <=? 13) || (28 <=? n) && (n <=? 32))%nat.

Fixpoint lstrip (s : string) : string :=
  match s with
  | "" => ""
  | String c s' => if is_space c then lstrip s' else s
  end.

Fixpoint rstrip (s : string) : string :=
  match s with
  | "" => ""
  | String c s' =>
      match rstrip s' with
      | "" => if is_space c then "" else String c ""
      | r => String c r
      end
  end.

Definition strip (s : string) : string := rstrip (lstrip s).

(** Removes the underscores that group digits; they must stand between two
    other characters, never first, last or doubled. *)
Fixpoint ungroup (after_digit : bool) (s : string) : option string :=
  match s with
  | "" => if after_digit then Some "" else None
  | String c s' =>
      if Ascii.eqb c "_"
      then (if after_digit then ungroup false s' else None)
      else String c <$> ungroup true s'
  end.

Definition int_digits (s : string) : option Z :=
  t ← ungroup false s;
  d ← DecimalString.NilZero.uint_of_string t;
  Some (Z.of_uint d).

(** [int(s)] in base 10 on ASCII text; [None] stands for ValueError. *)
Definition py_int (s : string) : option Z :=
  match strip s with
  | String "-" r => Z.opp <$> int_digits r
  | String "+" r => int_digits r
  | t => int_digits t
  end.

(** [f"{n}"] for an integer. *)
Definition str_of_int (n : Z) : string :=
  DecimalString.NilZero.string_of_int (Z.to_int n).

End Py.

(** ** client.py *)

Module Client.
Import Py.
Local Open Scope string_scope.

(** *** The network and the state threaded through the client *)

(** What [response.json()] gives. *)
Inductive payload :=
| Json (j : json)
| NotJson               (* wrong content type: aiohttp.ContentTypeError *)
| BadJson.              (* body that does not decode: a ValueError *)

(** The outcome of one [session.get]: a response with its status, its
    [Retry-After] header if it has one and its body, or a transport
    failure. *)
Inductive outcome :=
| Response (status : Z) (retry_after : option string) (body : payload)
| Failure (e : client_error).

(** The outcomes still to come, the URLs requested so far and the
    arguments of the [asyncio.sleep] calls so far, both oldest first. *)
Record world := mkWorld {
  script : list outcome;
  requested : list string;
  sleeps : list Z
}.

(** A computation ends with a value, with an exception, or cannot go on
    because the script or the loop budget ran out. *)
Inductive res (A : Type) :=
| Ret (a : A)
| Raise (e : exn)
| Stuck.
Arguments Ret {A} a.
Arguments Raise {A} e.
Arguments Stuck {A}.

Definition M (A : Type) : Type := world -> res A * world.

Definition ret {A} (a : A) : M A := fun w => (Ret a, w).
Definition raise {A} (e : exn) : M A := fun w => (Raise e, w).
Definition stuck {A} : M A := fun w => (Stuck, w).

Definition bind {A B} (m : M A) (k : A -> M B) : M B :=
  fun w =>
    match m w with
    | (Ret a, w') => k a w'
    | (Raise e, w') => (Raise e, w')
    | (Stuck, w') => (Stuck, w')
    end.

Notation "'let*' x ':=' m 'in' k" := (bind m (fun x => k))
  (at level 10, x name, m at level 100, k at level 200).
Notation "m1 ';;' m2" := (bind m1 (fun _ => m2))
  (at level 100, m2 at level 200, right associativity).

(** A Python operation that raises [e] where the model has [None]. *)
Definition or_raise {A} (e : exn) (o : option A) : M A :=
  match o with
  | Some a => ret a
  | None => raise e
  end.

(** [except NotFoundError: return dflt] around [m]. *)
Definition except_not_found {A} (m : M A) (dflt : A) : M A :=
  fun w =>
    match m w with
    | (Raise (NotFoundError _ _), w') => (Ret dflt, w')
    | r => r
    end.

(** [self._session.get(url)]: takes the next outcome and records the URL. *)
Definition session_get (url : string) : M outcome :=
  fun w =>
    match script w with
    | [] => (Stuck, w)
    | o :: rest => (Ret o, mkWorld rest (requested w ++ [url]) (sleeps w))
    end.

(** [asyncio.sleep(seconds)]. *)
Definition sleep (seconds : Z) : M unit :=
  fun w => (Ret tt, mkWorld (script w) (requested w) (sleeps w ++ [seconds])).

(** [response.json()] followed by [k]: the content-type error is an
    [aiohttp.ClientError], so it leaves the [try] body and is handled by
    [on_error]; a body that does not decode raises a ValueError. *)
Definition with_json {A} (body : payload) (on_error : client_error -> M A)
    (k : json -> M A) : M A :=
  match body with
  | Json j => k j
  | NotJson => on_error ContentTypeError
  | BadJson => raise ValueError
  end.

(** *** The client *)

Definition BASE_URL : string := "https://rickandmortyapi.com/api".

(** [self._session] is set or not; [self._max_retries]; [self._timeout]. *)
Record RickAndMortyClient := mkClient {
  session : bool;
  max_retries : Z;
  timeout : Z
}.

(** [int(response.headers.get('Retry-After', 60))]. *)
Definition retry_after_of (header : option string) : option Z :=
  match header with
  | None => Some 60%Z
  | Some s => py_int s
  end.

(** The [except (aiohttp.ClientError, asyncio.TimeoutError)] clause of
    lines 130-138; [retry] is the rest of the loop. *)
Definition on_client_error (self : RickAndMortyClient) (attempt : Z)
    (retry : M json) (e : client_error) : M json :=
  let wait_time := (2 ^ attempt)%Z in
  if (attempt <? max_retries self)%Z
  then sleep wait_time ;; retry
  else raise (ClientError e).

(** The loop [for attempt in range(1, self._max_retries + 1)] of lines
    91-138, with [n] iterations left; running off its end is the implicit
    [return None]. *)
Fixpoint attempts (self : RickAndMortyClient) (url resource_type : string)
    (resource_id : option Z) (n : nat) (attempt : Z) : M json :=
  match n with
  | O => ret JNull
  | S n' =>
      let retry := attempts self url resource_type resource_id n' (attempt + 1)%Z in
      let* o := session_get url in
      match o with
      | Failure e => on_client_error self attempt retry e
      | Response status header body =>
          if (status =? 429)%Z then
            let* retry_after := or_raise ValueError (retry_after_of header) in
            if (attempt =? max_retries self)%Z
            then raise (RateLimitError retry_after)
            else sleep retry_after ;; retry
          else if (status =? 404)%Z then
            raise (NotFoundError resource_type resource_id)
          else if (500 <=? status)%Z && (status <? 600)%Z then
            if (attempt =? max_retries self)%Z
            then raise ServerError
            else sleep (2 ^ attempt)%Z ;; retry
          else if negb (status =? 200)%Z then
            with_json body (on_client_error self attempt retry)
              (fun error_data =>
                 let* error_message :=
                   or_raise AttributeError
                     (py_get error_data "error" (JStr "Unknown error")) in
                 raise (APIError status error_message))
          else
            with_json body (on_client_error self attempt retry) ret
      end
  end.

(** Lines 86-88: the resource type and the numeric id of an endpoint. *)
Definition resource_type_of (endpoint : string) : string :=
  nth 0 (split "/" endpoint) "".

Definition resource_id_of (endpoint : string) : M (option Z) :=
  match split "/" endpoint with
  | _ :: part :: _ =>
      if isdigit part
      then let* n := or_raise ValueError (py_int part) in ret (Some n)
      else ret None
  | _ => ret None
  end.

(** [_make_request]. *)
Definition _make_request (self : RickAndMortyClient) (endpoint : string)
  : M json :=
  if negb (session self) then raise RuntimeError
  else
    let url := BASE_URL ++ "/" ++ endpoint in
    let resource_type := resource_type_of endpoint in
    let* resource_id := resource_id_of endpoint in
    attempts self url resource_type resource_id
      (Z.to_nat (max_retries self)) 1%Z.

(** The [while next_url:] loop of lines 154-171; [fuel] bounds the number
    of iterations and [Stuck] is returned when it runs out. *)
Fixpoint pages (self : RickAndMortyClient) (fuel : nat)
    (all_resources : list json) (next_url : string) : M (list json) :=
  if String.eqb next_url "" then ret all_resources
  else
    match fuel with
    | O => stuck
    | S fuel' =>
        let* data := _make_request self next_url in
        let* has_results := or_raise TypeError (py_in "results" data) in
        if negb has_results then ret all_resources
        else
          let* results := or_raise AttributeError (py_get data "results" (JArr [])) in
          let* all_resources := or_raise TypeError (py_extend all_resources results) in
          let* info := or_raise AttributeError (py_get data "info" (JObj [])) in
          let* next_page := or_raise AttributeError (py_get info "next" JNull) in
          if truthy next_page then
            match next_page with
            | JStr link => pages self fuel' all_resources (replace (BASE_URL ++ "/") "" link)
            | _ => raise AttributeError
            end
          else ret all_resources
    end.

(** [get_all_resources]. *)
Definition get_all_resources (self : RickAndMortyClient) (fuel : nat)
    (resource_type : string) : M (list json) :=
  except_not_found (pages self fuel [] resource_type) [].

(** A filter value: [None], a string or an integer. *)
Inductive filter_value :=
| FNone
| FStr (s : string)
| FInt (n : Z).

(** [f"{v}"]. *)
Definition format_value (v : filter_value) : string :=
  match v with
  | FNone => "None"
  | FStr s => s
  | FInt n => str_of_int n
  end.

Definition is_not_None (v : filter_value) : bool :=
  match v with FNone => false | _ => true end.

(** ["&".join(f"{k}={v}" for k, v in filters.items() if v is not None)];
    the dictionary is the list of its items in insertion order. *)
Definition query_params (filters : list (string * filter_value)) : string :=
  join "&"
    (map (fun kv => kv.1 ++ "=" ++ format_value kv.2)
         (List.filter (fun kv => is_not_None kv.2) filters)).

(** Lines 193-197 and their copies for locations and episodes. *)
Definition filtered_endpoint (endpoint : string)
    (filters : option (list (string * filter_value))) : string :=
  match filters with
  | None | Some [] => endpoint
  | Some items =>
      let q := query_params items in
      if String.eqb q "" then endpoint else endpoint ++ "/?" ++ q
  end.

Definition get_characters self fuel filters : M (list json) :=
  get_all_resources self fuel (filtered_endpoint "character" filters).
Definition get_locations self fuel filters : M (list json) :=
  get_all_resources self fuel (filtered_endpoint "location" filters).
Definition get_episodes self fuel filters : M (list json) :=
  get_all_resources self fuel (filtered_endpoint "episode" filters).

Definition get_character self (character_id : Z) : M json :=
  _make_request self ("character/" ++ str_of_int character_id).
Definition get_location self (location_id : Z) : M json :=
  _make_request self ("location/" ++ str_of_int location_id).
Definition get_episode self (episode_id : Z) : M json :=
  _make_request self ("episode/" ++ str_of_int episode_id).

(** [RickAndMortyClient()] inside [async with]: the defaults of [__init__]
    and the session opened by [__aenter__]. *)
Definition default_client : RickAndMortyClient := mkClient true 3 10.

(** A world that starts with the given script and empty logs. *)
Definition start (outcomes : list outcome) : world := mkWorld outcomes [] [].

(** *** Vocabulary for the properties *)

(** The URL requested for an endpoint (line 83). *)
Definition url_of (endpoint : string) : string := BASE_URL ++ "/" ++ endpoint.

(** The world after one more request to [url] has been answered, and after
    the sleep that follows it. *)
Definition answered (url : string) (w : world) (rest : list outcome) : world :=
  mkWorld rest (requested w ++ [url]) (sleeps w).

Definition rested (url : string) (w : world) (rest : list outcome)
    (seconds : Z) : world :=
  mkWorld rest (requested w ++ [url]) (sleeps w ++ [seconds]).

(** A response with a 5xx status. *)
Definition server_error (o : outcome) : bool :=
  match o with
  | Response status _ _ => (500 <=? status)%Z && (status <? 600)%Z
  | Failure _ => false
  end.

(** A 429 response, with the delay its header asks for. *)
Definition rate_limited (o : outcome) : option Z :=
  match o with
  | Response status header _ =>
      if (status =? 429)%Z then retry_after_of header else None
  | Failure _ => None
  end.

(** The powers of two slept by [k] consecutive backoffs that start at
    attempt number [attempt]. *)
Fixpoint backoffs (attempt : Z) (k : nat) : list Z :=
  match k with
  | O => []
  | S k' => (2 ^ attempt)%Z :: backoffs (attempt + 1)%Z k'
  end.

(** What the pagination loop reads in a page: the list under "results" and
    the entry "next" of the dictionary under "info" ([None] when absent). *)
Definition page_of (data : json) : option (list json * json) :=
  match data with
  | JObj fields =>
      match assoc "results" fields with
      | Some (JArr results) =>
          match default (JObj []) (assoc "info" fields) with
          | JObj info => Some (results, default JNull (assoc "next" info))
          | _ => None
          end
      | _ => None
      end
  | _ => None
  end.

(** A page that has a successor: its response header, its body, the
    results the body holds and the endpoint its "next" link points to. *)
Record page := mkPage {
  header : option string;
  data : json;
  items : list json;
  next_endpoint : string
}.

Definition response_of (p : page) : outcome :=
  Response 200 (header p) (Json (data p)).

(** The body reads as [items p] with a "next" link made of the base URL,
    a slash and a non-empty endpoint in which the base URL does not occur
    again. *)
Definition well_formed (p : page) : Prop :=
  page_of (data p) = Some (items p, JStr (url_of (next_endpoint p))) /\
  next_endpoint p <> "" /\
  contains (BASE_URL ++ "/") (next_endpoint p) = false.

(** The endpoints requested while walking the pages [ps] from [first], and
    the endpoint the walk stands at afterwards. *)
Fixpoint visited (first : string) (ps : list page) : list string :=
  match ps with
  | [] => []
  | p :: ps' => first :: visited (next_endpoint p) ps'
  end.

Fixpoint cursor (first : string) (ps : list page) : string :=
  match ps with
  | [] => first
  | p :: ps' => cursor (next_endpoint p) ps'
  end.

(** A collection body in the upstream wire format:
    [{"info": {"next": ...}, "results": [...]}]. *)
Definition collection_body (next : json) (results : list json) : json :=
  JObj [("info", JObj [("next", next)]); ("results", JArr results)].

(** The resources numbered [a], [a+1], ..., [a+n-1]. *)
Definition numbered (a n : nat) : list json :=
  map (fun i => JObj [("id", JNum (Z.of_nat i))]) (seq a n).

(** [c not in s]. *)
Fixpoint absent (c : ascii) (s : string) : bool :=
  match s with
  | "" => true
  | String a s' => negb (Ascii.eqb a c) && absent c s'
  end.

(** The entries a query string carries: the items whose value is not
    [None], with the value as text. *)
Definition rendered (filters : list (string * filter_value))
  : list (string * string) :=
  map (fun kv => (kv.1, format_value kv.2))
      (List.filter (fun kv => is_not_None kv.2) filters).

(** An entry that survives the plain-text query string: its value is
    [None], or its key has neither ["&"] nor ["="] and its value, when a
    string, has no ["&"]. *)
Definition plain_entry (kv : string * filter_value) : bool :=
  match kv.2 with
  | FNone => true
  | FStr s => absent "&" kv.1 && absent "=" kv.1 && absent "&" s
  | FInt _ => absent "&" kv.1 && absent "=" kv.1
  end.

(** Modelled from the spec: the test double upstream that parses a query
    string back into a mapping is not part of the sources.  It splits the
    string at every ["&"] and each piece at its first ["="], without any
    decoding, and gives the pairs in order; the empty string has no
    pairs. *)
Fixpoint cut (sep : ascii) (s : string) : string * string :=
  match s with
  | "" => ("", "")
  | String c s' =>
      if Ascii.eqb c sep then ("", s')
      else let r := cut sep s' in (String c r.1, r.2)
  end.

Definition parse_query (q : string) : list (string * string) :=
  if String.eqb q "" then [] else map (cut "=") (split "&" q).

End Client.

(** ** Runs of the rate limiter *)

Module Traces.
Import Clock RateLimiter.

(** The sequence stored under a key, empty when the key is absent. *)
Definition stored (self : SimpleRateLimiter) (ip : string) : list Q :=
  default [] (requests self !! ip).

(** The answers of [is_rate_limited] along a trace, in call order. *)
Fixpoint answers (trace : list (Q * Q * string)) (self : SimpleRateLimiter)
  : list bool :=
  match trace with
  | [] => []
  | (t, c, ip) :: trace' =>
      let r := is_rate_limited t c ip self in
      r.1 :: answers trace' r.2
  end.

(** The readings at which calls of [ip] were admitted along a trace. *)
Fixpoint admitted_times (ip : string) (trace : list (Q * Q * string))
    (self : SimpleRateLimiter) : list Q :=
  match trace with
  | [] => []
  | (t, c, k) :: trace' =>
      let r := is_rate_limited t c k self in
      if String.eqb k ip && negb r.1
      then t :: admitted_times ip trace' r.2
      else admitted_times ip trace' r.2
  end.

(** The clock never goes backwards along a trace that starts at reading
    [last]: each call reads the clock no earlier than the reading before
    it, and [_cleanup] no earlier than its call. *)
Fixpoint monotone (last : Q) (trace : list (Q * Q * string)) : Prop :=
  match trace with
  | [] => True
  | (t, c, _) :: trace' => (last <= t)%Q /\ (t <= c)%Q /\ monotone c trace'
  end.

(** The last reading of a trace that starts at reading [last]. *)
Fixpoint last_reading (last : Q) (trace : list (Q * Q * string)) : Q :=
  match trace with
  | [] => last
  | (_, c, _) :: trace' => last_reading c trace'
  end.

(** The sequence of the key of a call, before [_cleanup] may run. *)
Definition recorded (now : Q) (ip : string) (self : SimpleRateLimiter)
  : list Q :=
  let window := prune now (stored self ip) in
  if (requests_per_minute self <=? Z.of_nat (length window))%Z
  then window else window ++ [now].

(** A sequence of timestamps in which none is followed by an earlier
    one. *)
Fixpoint ascending (l : list Q) : Prop :=
  match l with
  | [] => True
  | x :: l' => List.Forall (fun y => (x <= y)%Q) l' /\ ascending l'
  end.

End Traces.

(** ** Further vocabulary for the client *)

Module ClientTerms.
Import Py Client.
Local Open Scope string_scope.

(** An outcome handled by the [except] clause of lines 130-138: a failure of
    [session.get], or a response whose body is read (any status other than
    429, 404 and 5xx) and has the wrong content type. *)
Definition transport_failure (o : outcome) : option client_error :=
  match o with
  | Failure e => Some e
  | Response status _ NotJson =>
      if (status =? 429)%Z || (status =? 404)%Z
         || ((500 <=? status)%Z && (status <? 600)%Z)
      then None else Some ContentTypeError
  | Response _ _ _ => None
  end.

(** A status that is neither 200 nor handled by its own branch. *)
Definition other_status (status : Z) : bool :=
  negb ((status =? 429)%Z || (status =? 404)%Z
        || ((500 <=? status)%Z && (status <? 600)%Z) || (status =? 200)%Z).

(** A URL under the base URL of the upstream API. *)
Definition confined (url : string) : bool :=
  String.prefix (BASE_URL ++ "/") url.

(** The effects of a logical request: [k] requests answered, all for
    [url], and the sleeps [more]. *)
Definition spent (url : string) (w w' : world) (k : nat) (more : list Z)
  : Prop :=
  requested w' = (requested w ++ repeat url k)%list /\
  script w' = skipn k (script w) /\
  sleeps w' = (sleeps w ++ more)%list.

(** The computation only adds requests, and only to URLs under the base
    URL. *)
Definition extends {A} (m : M A) : Prop :=
  forall w, exists urls,
    requested (m w).2 = (requested w ++ urls)%list /\
    Forall (fun u => confined u = true) urls.

End ClientTerms.

(** ** api_service.py, and the exception classes of client.py *)

Module Service.
Import Clock RateLimiter Py Client.
Local Open Scope string_scope.

(** [exc.message] of the exception classes of client.py, lines 13-30; the
    other exceptions carry none. *)
Definition message (e : exn) : option json :=
  match e with
  | NotFoundError resource_type None =>
      Some (JStr (resource_type ++ " not found"))
  | NotFoundError resource_type (Some resource_id) =>
      Some (JStr (resource_type ++ " with ID " ++ str_of_int resource_id
                  ++ " not found"))
  | RateLimitError retry_after =>
      Some (JStr ("Rate limit exceeded. Try again in "
                  ++ str_of_int retry_after ++ " seconds"))
  | ServerError => Some (JStr "Internal server error")
  | APIError _ m => Some m
  | _ => None
  end.

(** [exc.status_code]. *)
Definition status_code (e : exn) : option Z :=
  match e with
  | NotFoundError _ _ => Some 404%Z
  | RateLimitError _ => Some 429%Z
  | ServerError => Some 500%Z
  | APIError status _ => Some status
  | _ => None
  end.

(** A [JSONResponse]: status, content and the headers given explicitly. *)
Record http_response := mkResponse {
  http_status : Z;
  content : json;
  headers : list (string * string)
}.

Definition detail (d : json) : json := JObj [("detail", d)].

(** The handlers registered with [@app.exception_handler], lines 82-109:
    the handler of the most specific class answers; an exception of
    another class has no handler here. *)
Definition exception_response (e : exn) : option http_response :=
  match e with
  | NotFoundError _ _ =>
      Some (mkResponse 404 (detail (default JNull (message e))) [])
  | RateLimitError retry_after =>
      Some (mkResponse 429 (detail (default JNull (message e)))
              [("Retry-After", str_of_int retry_after)])
  | ServerError =>
      Some (mkResponse 503
              (detail (JStr "The Rick and Morty API is currently unavailable. Please try again later."))
              [])
  | APIError status m => Some (mkResponse status (detail m) [])
  | _ => None
  end.

(** [rate_limiting_middleware], lines 53-70.  [call_next] runs the rest of
    the application on its own state. *)
Definition too_many_requests : http_response :=
  mkResponse 429 (detail (JStr "Too many requests. Please try again later."))
    [("Retry-After", "60")].

Definition rate_limiting_middleware {S : Type} (now cleanup_time : Q)
    (client_ip path : string) (call_next : S -> http_response * S)
    (state : SimpleRateLimiter * S) : http_response * (SimpleRateLimiter * S) :=
  if String.eqb path "/health" then
    let r := call_next state.2 in (r.1, (state.1, r.2))
  else
    let limited := is_rate_limited now cleanup_time client_ip state.1 in
    if limited.1 then (too_many_requests, (limited.2, state.2))
    else let r := call_next state.2 in (r.1, (limited.2, r.2)).

(** The limiter created on line 43. *)
Definition rate_limiter : SimpleRateLimiter := init 30.

(** [s.lower()] on ASCII text. *)
Definition lower_char (c : ascii) : ascii :=
  let n := nat_of_ascii c in
  if ((65 <=? n) && (n <=? 90))%nat then ascii_of_nat (n + 32) else c.

Fixpoint lower (s : string) : string :=
  match s with
  | "" => ""
  | String c s' => String (lower_char c) (lower s')
  end.

(** Truth value of an optional string: [None] and [""] are false. *)
Definition given (o : option string) : bool :=
  match o with
  | Some s => negb (String.eqb s "")
  | None => false
  end.

Definition too_long (o : option string) : bool :=
  match o with
  | Some s => negb (String.eqb s "") && (100 <? String.length s)%nat
  | None => false
  end.

Definition known_status (s : string) : bool :=
  existsb (String.eqb (lower s)) ["alive"; "dead"; "unknown"].

Definition optional (o : option string) : filter_value :=
  match o with
  | Some s => FStr s
  | None => FNone
  end.

(** [validate_character_filters], lines 165-192: the list of error
    messages of the HTTPException (status 400) it raises, or the mapping
    it returns. *)
Definition validate_character_filters (name status species : option string)
    (page : Z) : list string + list (string * filter_value) :=
  let errors :=
    ((if too_long name then ["Name is too long (max 100 characters)"] else [])
     ++ (match status with
         | Some s => if negb (String.eqb s "") && negb (known_status s)
                     then ["Status must be one of: alive, dead, unknown"] else []
         | None => []
         end)
     ++ (if too_long species then ["Species is too long (max 100 characters)"] else []))%list in
  match errors with
  | [] =>
      inr [("name", optional name);
           ("status", match status with
                      | Some s => if String.eqb s "" then FNone else FStr (lower s)
                      | None => FNone
                      end);
           ("species", optional species);
           ("page", FInt page)]
  | _ => inl errors
  end.

(** What a route function does: return data, raise an HTTPException, let
    an exception of the client through, or not finish in the model. *)
Inductive route_result :=
| Returned (data : json)
| HTTPException (status : Z) (reason : json)
| Propagated (e : exn)
| Unfinished.

(** The state of the routes: the network of the client, what [get_cache]
    answers for each key ([JNull] for [None]; Redis is outside the
    sources), and the calls of [set_cache] so far. *)
Record service := mkService {
  net : world;
  cache : string -> json;
  cache_writes : list (string * json)
}.

(** The routes for one resource, lines 237-262 and their copies for
    locations (301-326) and episodes (363-388): [fetch] is the client
    method, [kind] the key prefix and [Kind] the word of the message. *)
Definition id_route (fetch : RickAndMortyClient -> Z -> M json)
    (kind Kind : string) (resource_id : Z) (s : service)
  : route_result * service :=
  if (resource_id <=? 0)%Z then
    (HTTPException 400 (JStr (Kind ++ " ID must be positive")), s)
  else
    let cache_key := kind ++ ":" ++ str_of_int resource_id in
    let cached_data := cache s cache_key in
    if truthy cached_data then (Returned cached_data, s)
    else
      match fetch default_client resource_id (net s) with
      | (Ret data, w) =>
          (Returned data,
           mkService w (cache s) (cache_writes s ++ [(cache_key, data)]))
      | (Raise e, w) => (Propagated e, mkService w (cache s) (cache_writes s))
      | (Stuck, w) => (Unfinished, mkService w (cache s) (cache_writes s))
      end.

Definition character_route := id_route get_character "character" "Character".
Definition location_route := id_route get_location "location" "Location".
Definition episode_route := id_route get_episode "episode" "Episode".

Section ListRoutes.

(** [json.dumps] on a filter mapping, used only to build cache keys; the
    library function is a parameter. *)
Variable json_dumps : list (string * filter_value) -> string.

(** The body shared by the list routes once the filters are built: cache
    lookup, then the [try] block of lines 227-235. *)
Definition list_route
    (fetch : RickAndMortyClient -> nat -> option (list (string * filter_value))
             -> M (list json))
    (kinds : string) (fuel : nat) (filters : list (string * filter_value))
    (s : service) : route_result * service :=
  let cache_key := kinds ++ ":" ++ json_dumps filters in
  let cached_data := cache s cache_key in
  if truthy cached_data then (Returned cached_data, s)
  else
    match fetch default_client fuel (Some filters) (net s) with
    | (Ret data, w) =>
        (Returned (JArr data),
         mkService w (cache s) (cache_writes s ++ [(cache_key, JArr data)]))
    | (Raise e, w) =>
        (HTTPException 500 (JStr ("Failed to fetch " ++ kinds)),
         mkService w (cache s) (cache_writes s))
    | (Stuck, w) => (Unfinished, mkService w (cache s) (cache_writes s))
    end.

(** [/characters], lines 200-235. *)
Definition characters_route (fuel : nat) (name status species : option string)
    (page : Z) (s : service) : route_result * service :=
  match validate_character_filters name status species page with
  | inl errors =>
      (HTTPException 400 (JObj [("errors", JArr (map JStr errors))]), s)
  | inr validated_filters =>
      list_route get_characters "characters" fuel validated_filters s
  end.

(** [{k: v for k, v in filters.items() if v is not None}]. *)
Definition without_none (filters : list (string * filter_value))
  : list (string * filter_value) :=
  List.filter (fun kv => is_not_None kv.2) filters.

(** [/locations], lines 264-299, and [/episodes], lines 328-361. *)
Definition locations_route (fuel : nat) (name type dimension : option string)
    (page : Z) : service -> route_result * service :=
  list_route get_locations "locations" fuel
    (without_none [("name", optional name); ("type", optional type);
                   ("dimension", optional dimension); ("page", FInt page)]).

Definition episodes_route (fuel : nat) (name episode : option string)
    (page : Z) : service -> route_result * service :=
  list_route get_episodes "episodes" fuel
    (without_none [("name", optional name); ("episode", optional episode);
                   ("page", FInt page)]).

End ListRoutes.

End Service.

(** ** The session of the client, client.py lines 36-61 *)

Module Lifecycle.
Import Py Client.

(** The attributes set by [__init__]; a session is named by a number. *)
Record client_object := mkObject {
  _session : option nat;
  _own_session : bool;
  _max_retries : Z;
  _timeout : Z
}.

(** The aiohttp sessions: how many were created so far (a new one takes
    that number as its name) and the ones closed, oldest first. *)
Record sessions := mkSessions {
  created : nat;
  closed : list nat
}.

Definition __init__ (session : option nat) (max_retries timeout : Z)
  : client_object :=
  mkObject session (match session with None => true | Some _ => false end)
    max_retries timeout.

Definition __aenter__ (self : client_object) (env : sessions)
  : client_object * sessions :=
  if _own_session self
  then (mkObject (Some (created env)) (_own_session self)
          (_max_retries self) (_timeout self),
        mkSessions (S (created env)) (closed env))
  else (self, env).

Definition __aexit__ (self : client_object) (env : sessions) : sessions :=
  if _own_session self then
    match _session self with
    | Some s => mkSessions (created env) (closed env ++ [s])
    | None => env
    end
  else env.

(** The object as [_make_request] reads it. *)
Definition as_client (self : client_object) : RickAndMortyClient :=
  mkClient (match _session self with Some _ => true | None => false end)
    (_max_retries self) (_timeout self).

End Lifecycle.

(** * Properties of the rate limiter *)

Module RateLimiterFacts.
Import Clock RateLimiter.

Lemma Qltb_lt (x y : Q) : Qltb x y = true <-> (x < y)%Q.
Proof.
  unfold Qltb. rewrite negb_true_iff. split; intros H.
  - apply Qnot_le_lt. intros Hle. apply Qle_bool_iff in Hle. congruence.
  - destruct (Qle_bool y x) eqn:E; [|reflexivity].
    apply Qle_bool_iff in E. apply Qle_not_lt in E. contradiction.
Qed.

Lemma Qltb_ge (x y : Q) : Qltb x y = false <-> (y <= x)%Q.
Proof. unfold Qltb. rewrite negb_false_iff. apply Qle_bool_iff. Qed.

(** What [prune] keeps. *)
Lemma prune_In (now ts : Q) (l : list Q) :
  In ts (prune now l) <-> In ts l /\ (now - ts < 60)%Q.
Proof.
  unfold prune. rewrite filter_In, Qltb_lt. reflexivity.
Qed.

(** Pruning at a later reading subsumes pruning at an earlier one. *)
Lemma prune_prune (now now' : Q) (l : list Q) :
  (now <= now')%Q -> prune now' (prune now l) = prune now' l.
Proof.
  intros Hle. unfold prune.
  induction l as [|ts l IH]; [reflexivity|]. cbn [List.filter].
  destruct (Qltb (now - ts) 60) eqn:E.
  - cbn [List.filter]. rewrite IH. reflexivity.
  - rewrite IH. apply Qltb_ge in E.
    assert (E' : Qltb (now' - ts) 60 = false) by (apply Qltb_ge; lra).
    rewrite E'. reflexivity.
Qed.

Lemma prune_repeat_keep (now ts : Q) (n : nat) :
  (now - ts < 60)%Q -> prune now (repeat ts n) = repeat ts n.
Proof.
  intros H. apply Qltb_lt in H.
  unfold prune. induction n as [|n IH]; [reflexivity|].
  cbn [repeat List.filter]. rewrite H, IH. reflexivity.
Qed.

Lemma prune_repeat_drop (now ts : Q) (n : nat) :
  (60 <= now - ts)%Q -> prune now (repeat ts n) = [].
Proof.
  intros H. apply Qltb_ge in H.
  unfold prune. induction n as [|n IH]; [reflexivity|].
  cbn [repeat List.filter]. rewrite H. exact IH.
Qed.

(** [py_max] returns an item of the list that no item exceeds. *)
Lemma py_max_In (x : Q) (l : list Q) : In (py_max x l) (x :: l).
Proof.
  revert x. induction l as [|y l IH]; intros x; [left; reflexivity|].
  cbn [py_max]. specialize (IH (if Qltb x y then y else x)).
  destruct IH as [IH|IH].
  - destruct (Qltb x y); [right; left|left]; exact IH.
  - right; right; exact IH.
Qed.

Lemma py_max_ge (x : Q) (l : list Q) (y : Q) :
  In y (x :: l) -> (y <= py_max x l)%Q.
Proof.
  revert x y. induction l as [|z l IH]; intros x y Hin.
  - destruct Hin as [<-|[]]. cbn. lra.
  - cbn [py_max].
    assert (Hx : (x <= if Qltb x z then z else x)%Q).
    { destruct (Qltb x z) eqn:E; [apply Qltb_lt in E|]; lra. }
    assert (Hz : (z <= if Qltb x z then z else x)%Q).
    { destruct (Qltb x z) eqn:E; [|apply Qltb_ge in E]; lra. }
    destruct Hin as [<-|[<-|Hin]].
    + eapply Qle_trans; [exact Hx|]. apply IH. left; reflexivity.
    + eapply Qle_trans; [exact Hz|]. apply IH. left; reflexivity.
    + apply IH. right; exact Hin.
Qed.

(** A key is idle exactly when every recorded timestamp is more than 300
    seconds older than the reading. *)
Lemma idle_spec (now : Q) (l : list Q) :
  idle now l = true <-> forall ts, In ts l -> (300 < now - ts)%Q.
Proof.
  destruct l as [|t l]; cbn [idle].
  - split; [intros _ ts []|reflexivity].
  - rewrite Qltb_lt. split.
    + intros H ts Hin. pose proof (py_max_ge t l ts Hin). lra.
    + intros H. apply H, py_max_In.
Qed.

(** What [_cleanup] leaves under each key. *)
Lemma cleanup_lookup (now : Q) (self : SimpleRateLimiter) (k : string) :
  requests (_cleanup now self) !! k =
  match requests self !! k with
  | Some l => if idle now l then None else Some l
  | None => None
  end.
Proof.
  unfold _cleanup. cbn [requests]. rewrite map_lookup_filter.
  destruct (requests self !! k) as [l|]; [|reflexivity].
  cbn. destruct (idle now l); case_guard; cbn; congruence.
Qed.

(** The limiter's answer and its next state, by cases. *)
Lemma is_rate_limited_eq (now c : Q) (ip : string) (self : SimpleRateLimiter) :
  let window := prune now (default [] (requests self !! ip)) in
  is_rate_limited now c ip self =
  if (requests_per_minute self <=? Z.of_nat (length window))%Z
  then (true, mkLimiter (requests_per_minute self) (<[ip := window]> (requests self)))
  else (false,
        let self' := mkLimiter (requests_per_minute self)
                       (<[ip := window ++ [now]]> (requests self)) in
        if Qltb (fmod now 300) 1 then _cleanup c self' else self').
Proof.
  cbn zeta. unfold is_rate_limited.
  destruct (_ <=? _)%Z; [reflexivity|].
  destruct (Qltb _ _); reflexivity.
Qed.

Lemma limit_preserved (now c : Q) (ip : string) (self : SimpleRateLimiter) :
  requests_per_minute (is_rate_limited now c ip self).2 = requests_per_minute self.
Proof.
  rewrite is_rate_limited_eq. cbn zeta.
  destruct (_ <=? _)%Z; [reflexivity|]. cbn [snd].
  destruct (Qltb _ _); reflexivity.
Qed.


(** A rejected call stores the pruned sequence and nothing else. *)
Lemma rejected_state (now c : Q) (ip : string) (self : SimpleRateLimiter) :
  (is_rate_limited now c ip self).1 = true ->
  (is_rate_limited now c ip self).2 =
  mkLimiter (requests_per_minute self)
    (<[ip := prune now (default [] (requests self !! ip))]> (requests self)).
Proof.
  rewrite is_rate_limited_eq. cbn zeta.
  destruct (_ <=? _)%Z; [reflexivity|discriminate].
Qed.

(** After a rejection, a later call sees what it would have seen without
    the rejected call. *)
Lemma rejection_transparent (now c now' c' : Q) (ip : string)
    (self : SimpleRateLimiter) :
  (is_rate_limited now c ip self).1 = true -> (now <= now')%Q ->
  is_rate_limited now' c' ip (is_rate_limited now c ip self).2 =
  is_rate_limited now' c' ip self.
Proof.
  intros Hrej Hle. rewrite (rejected_state _ _ _ _ Hrej).
  rewrite !is_rate_limited_eq. cbn [requests requests_per_minute].
  rewrite lookup_insert_eq, !insert_insert_eq. cbn [from_option id].
  rewrite (prune_prune _ _ _ Hle). reflexivity.
Qed.

(** Calls made at reading 0 while the window still has room are all
    admitted and each records one timestamp. *)
Lemma calls_at_fill (ip : string) (cs : list Q) :
  forall (self : SimpleRateLimiter) (j : nat),
    default [] (requests self !! ip) = repeat 0%Q j ->
    (Z.of_nat (j + length cs) <= requests_per_minute self)%Z ->
    Forall (fun c => (0 <= c <= 300)%Q) cs ->
    (calls_at 0 ip cs self).1 = repeat true (length cs) /\
    default [] (requests (calls_at 0 ip cs self).2 !! ip)
      = repeat 0%Q (j + length cs) /\
    requests_per_minute (calls_at 0 ip cs self).2 = requests_per_minute self.
Proof.
  induction cs as [|c cs IH]; intros self j Hj Hroom Hcs.
  - cbn. rewrite Nat.add_0_r. auto.
  - inversion Hcs as [|? ? Hc Hcs']; subst.
    cbn [calls_at length fst snd repeat]. unfold Admit.
    pose proof (is_rate_limited_eq 0 c ip self) as E. cbn zeta in E.
    rewrite Hj, prune_repeat_keep in E by lra.
    rewrite repeat_length in E.
    cbn [length] in Hroom.
    destruct (requests_per_minute self <=? Z.of_nat j)%Z eqn:Hfull; [lia|].
    change (Qltb (fmod 0 300) 1) with true in E.
    rewrite E. cbn [fst snd negb].
    set (self' := _cleanup c _).
    assert (Hl : default [] (requests self' !! ip) = repeat 0%Q (S j)).
    { subst self'. rewrite cleanup_lookup. cbn [requests].
      rewrite lookup_insert_eq.
      destruct (idle c (repeat 0%Q j ++ [0%Q])) eqn:Hidle.
      - rewrite idle_spec in Hidle.
        specialize (Hidle 0%Q). rewrite in_app_iff in Hidle.
        assert (300 < c - 0)%Q by (apply Hidle; right; left; reflexivity).
        lra.
      - cbn. rewrite <- repeat_cons. reflexivity. }
    assert (Hrpm : requests_per_minute self' = requests_per_minute self)
      by reflexivity.
    destruct (IH self' (S j) Hl) as (H1 & H2 & H3); [rewrite Hrpm; lia|exact Hcs'|].
    rewrite H1, H2, H3, Hrpm. repeat split.
    f_equal. lia.
Qed.


(** Whatever a call stores under its key lies in the open window: the
    reading minus the timestamp is below 60. *)
Lemma stored_in_window (now c : Q) (ip : string) (self : SimpleRateLimiter)
    (l : list Q) (ts : Q) :
  requests (is_rate_limited now c ip self).2 !! ip = Some l ->
  In ts l -> (now - ts < 60)%Q.
Proof.
  rewrite is_rate_limited_eq. cbn zeta.
  set (window := prune now _).
  assert (Hw : forall x, In x (window ++ [now]) -> (now - x < 60)%Q).
  { intros x Hx. apply in_app_iff in Hx as [Hx|[<-|[]]]; [|lra].
    apply prune_In in Hx. tauto. }
  destruct (_ <=? _)%Z; cbn [snd requests].
  - rewrite lookup_insert_eq. intros [= <-] Hin.
    apply prune_In in Hin. tauto.
  - destruct (Qltb _ _).
    + rewrite cleanup_lookup. cbn [requests]. rewrite lookup_insert_eq.
      destruct (idle c _); [discriminate|]. intros [= <-]. apply Hw.
    + cbn [requests]. rewrite lookup_insert_eq. intros [= <-]. apply Hw.
Qed.

(** A call that does not run [_cleanup] removes no key. *)
Lemma keys_kept (now c : Q) (ip k : string) (self : SimpleRateLimiter) :
  (is_rate_limited now c ip self).1 = true \/ (1 <= fmod now 300)%Q ->
  is_Some (requests self !! k) ->
  is_Some (requests (is_rate_limited now c ip self).2 !! k).
Proof.
  rewrite is_rate_limited_eq. cbn zeta. intros Hno Hk.
  destruct (_ <=? _)%Z; cbn [fst snd requests] in *.
  - apply lookup_insert_is_Some'. right; exact Hk.
  - destruct Hno as [Hno|Hno]; [discriminate|].
    apply Qltb_ge in Hno. rewrite Hno. cbn [requests].
    apply lookup_insert_is_Some'. right; exact Hk.
Qed.

(** C1: Admit allows a request iff, after pruning, fewer than the limit
    timestamps remain in the key's 60-second window; at exactly the limit
    the request is rejected; a rejected call stores the pruned sequence and
    appends nothing, so a later call behaves as if the rejected one had not
    been made; and after [limit] requests admitted at reading 0 a request
    at 59 is rejected while one at 61 is admitted, also when the rejected
    one came first. *)
Theorem admit_sliding_window (self : SimpleRateLimiter) (ip : string)
    (now c : Q) :
  let window := prune now (default [] (requests self !! ip)) in
  let limit := requests_per_minute self in
  let r := Admit now c ip self in
  (r.1 = true <-> (Z.of_nat (length window) < limit)%Z) /\
  (Z.of_nat (length window) = limit -> r.1 = false) /\
  (r.1 = false -> requests r.2 = <[ip := window]> (requests self)) /\
  (forall now' c' : Q, r.1 = false -> (now <= now')%Q ->
     Admit now' c' ip r.2 = Admit now' c' ip self) /\
  (forall (cs : list Q) (c1 c2 : Q),
     cs <> [] -> Forall (fun c => (0 <= c <= 300)%Q) cs ->
     let full := calls_at 0 ip cs (init (Z.of_nat (length cs))) in
     full.1 = repeat true (length cs) /\
     (Admit 59 c1 ip full.2).1 = false /\
     (Admit 61 c2 ip full.2).1 = true /\
     (Admit 61 c2 ip (Admit 59 c1 ip full.2).2).1 = true).
Proof.
  cbn zeta. unfold Admit. cbn [fst snd].
  pose proof (is_rate_limited_eq now c ip self) as E. cbn zeta in E.
  repeat split.
  - rewrite E. destruct (Z.leb_spec (requests_per_minute self)
      (Z.of_nat (length (prune now (default [] (requests self !! ip))))));
      cbn; [discriminate|lia].
  - rewrite E. destruct (Z.leb_spec (requests_per_minute self)
      (Z.of_nat (length (prune now (default [] (requests self !! ip))))));
      cbn; [lia|reflexivity].
  - intros Heq. rewrite E, <- Heq, Z.leb_refl. reflexivity.
  - intros Hrej. apply negb_false_iff in Hrej.
    rewrite (rejected_state _ _ _ _ Hrej). reflexivity.
  - intros now' c' Hrej Hle. apply negb_false_iff in Hrej.
    rewrite (rejection_transparent _ _ _ _ _ _ Hrej Hle). reflexivity.
  - apply (calls_at_fill ip cs (init (Z.of_nat (length cs))) 0%nat);
      [reflexivity|cbn; lia|assumption].
  - pose proof (fun Hcs => calls_at_fill ip cs (init (Z.of_nat (length cs)))
                  0%nat eq_refl (Z.le_refl _) Hcs) as F.
    destruct F as (_ & Hl & Hrpm); [assumption|]. cbn [Nat.add] in Hl.
    rewrite is_rate_limited_eq. cbn zeta.
    rewrite Hl, Hrpm, prune_repeat_keep, repeat_length by lra.
    cbn [init requests_per_minute]. rewrite Z.leb_refl. reflexivity.
  - pose proof (fun Hcs => calls_at_fill ip cs (init (Z.of_nat (length cs)))
                  0%nat eq_refl (Z.le_refl _) Hcs) as F.
    destruct F as (_ & Hl & Hrpm); [assumption|]. cbn [Nat.add] in Hl.
    rewrite is_rate_limited_eq. cbn zeta.
    rewrite Hl, Hrpm, prune_repeat_drop by lra.
    cbn [init requests_per_minute length].
    destruct cs; [congruence|]. cbn [length].
    destruct (Z.leb_spec (Z.of_nat (S (length cs))) (Z.of_nat 0)); [lia|].
    cbn [fst]. destruct (Qltb _ _); reflexivity.
  - pose proof (fun Hcs => calls_at_fill ip cs (init (Z.of_nat (length cs)))
                  0%nat eq_refl (Z.le_refl _) Hcs) as F.
    destruct F as (_ & Hl & Hrpm); [assumption|]. cbn [Nat.add] in Hl.
    assert (Hrej : (is_rate_limited 59 c1 ip
              (calls_at 0 ip cs (init (Z.of_nat (length cs)))).2).1 = true).
    { rewrite is_rate_limited_eq. cbn zeta.
      rewrite Hl, Hrpm, prune_repeat_keep, repeat_length by lra.
      cbn [init requests_per_minute]. rewrite Z.leb_refl. reflexivity. }
    rewrite (rejection_transparent 59 c1 61 c2 ip _ Hrej) by lra.
    rewrite is_rate_limited_eq. cbn zeta.
    rewrite Hl, Hrpm, prune_repeat_drop by lra.
    cbn [init requests_per_minute length].
    destruct cs; [congruence|]. cbn [length].
    destruct (Z.leb_spec (Z.of_nat (S (length cs))) (Z.of_nat 0)); [lia|].
    cbn [fst]. destruct (Qltb _ _); reflexivity.
Qed.


Lemma admit_sliding_window_witness :
  let ip := "203.0.113.7"%string in
  let full := calls_at 0 ip (repeat 0%Q 30) (init default_limit) in
  full.1 = repeat true 30 /\
  (Admit 59 59 ip full.2).1 = false /\
  (Admit 61 61 ip full.2).1 = true /\
  (Admit 61 61 ip (Admit 59 59 ip full.2).2).1 = true.
Proof.
  cbn zeta.
  destruct (admit_sliding_window (init default_limit) "203.0.113.7" 0 0)
    as (_ & _ & _ & _ & H).
  apply (H (repeat 0%Q 30) 59%Q 61%Q); [discriminate|].
  apply List.Forall_forall. intros x Hx. apply repeat_spec in Hx. subst x. lra.
Defined.

(** C6: the stored sequence of a key holds only timestamps [ts] with
    [now - ts < 60], so a timestamp exactly 60 seconds old is dropped, not
    retained: with [0] recorded for a key, a call at reading 60 leaves
    [[60]] under that key, and for every reading and sequence the timestamp
    [now - 60] is absent from the pruned sequence. *)
Theorem sixty_seconds_old_dropped :
  (is_rate_limited 60 60 "203.0.113.7"
     (mkLimiter default_limit {[ "203.0.113.7"%string := [0%Q] ]})).1 = false /\
  requests (is_rate_limited 60 60 "203.0.113.7"
     (mkLimiter default_limit {[ "203.0.113.7"%string := [0%Q] ]})).2
    !! "203.0.113.7"%string = Some [60%Q] /\
  prune 60 [0%Q] = [] /\
  (forall (now : Q) (l : list Q), ~ In (now - 60)%Q (prune now l)) /\
  (forall (now c : Q) (ip : string) (self : SimpleRateLimiter),
     Forall (fun ts => (now - ts < 60)%Q)
       (default [] (requests (is_rate_limited now c ip self).2 !! ip))).
Proof.
  split; [vm_compute; reflexivity|].
  split; [vm_compute; reflexivity|].
  split; [vm_compute; reflexivity|].
  split.
  - intros now l Hin. apply prune_In in Hin as [_ Hlt]. lra.
  - intros now c ip self. apply List.Forall_forall. intros ts Hin.
    destruct (requests (is_rate_limited now c ip self).2 !! ip) as [l|] eqn:E;
      [|destruct Hin].
    exact (stored_in_window now c ip self l ts E Hin).
Qed.

(** C7, as stated, fails: a key whose last timestamp is 0 is still stored
    after four calls of another key at readings 310, 450, 590 and 620,
    which span more than 300 seconds; none of them falls in the first
    second of a 300-second period, so [_cleanup] never runs. *)
Lemma idle_key_survives :
  let self := mkLimiter default_limit {[ "198.51.100.1"%string := [0%Q] ]} in
  let trace := [(310, 310, "198.51.100.2"); (450, 450, "198.51.100.2");
                (590, 590, "198.51.100.2"); (620, 620, "198.51.100.2")]%Q
               : list (Q * Q * string) in
  requests self !! "198.51.100.1"%string = Some [0%Q] /\
  Forall (fun call => (300 < call.1.1 - 0)%Q /\ call.2 <> "198.51.100.1"%string) trace /\
  (300 < 620 - 310)%Q /\
  requests (run trace self) !! "198.51.100.1"%string = Some [0%Q].
Proof.
  cbn zeta. split; [vm_compute; reflexivity|].
  split; [|split; [lra|vm_compute; reflexivity]].
  repeat constructor; cbn; try lra; discriminate.
Qed.

(** C7, amended: [_cleanup] runs only inside an admitted call whose clock
    reading [now] has [now mod 300 < 1]; it then deletes exactly the keys
    whose sequence is empty or whose every (hence most recent) timestamp is
    more than 300 seconds older than the reading [_cleanup] makes, and
    keeps the others unchanged.  A rejected call and a call at any other
    reading delete no key. *)
Theorem cleanup_when_sampled (self : SimpleRateLimiter) (now c : Q)
    (ip k : string) :
  let r := is_rate_limited now c ip self in
  let recorded :=
    <[ip := prune now (default [] (requests self !! ip)) ++ [now]]>
      (requests self) in
  (r.1 = false -> (fmod now 300 < 1)%Q ->
     requests r.2 !! k =
     match recorded !! k with
     | Some l => if idle c l then None else Some l
     | None => None
     end) /\
  (forall l : list Q,
     idle c l = true <-> (forall ts, In ts l -> (300 < c - ts)%Q)) /\
  (r.1 = true \/ (1 <= fmod now 300)%Q ->
     is_Some (requests self !! k) -> is_Some (requests r.2 !! k)).
Proof.
  cbn zeta. split; [|split].
  - rewrite is_rate_limited_eq. cbn zeta.
    destruct (_ <=? _)%Z; [discriminate|]. intros _ Hmod.
    apply Qltb_lt in Hmod. cbn [snd]. rewrite Hmod.
    rewrite cleanup_lookup. reflexivity.
  - intros l. apply idle_spec.
  - apply keys_kept.
Qed.

Lemma cleanup_when_sampled_witness :
  let self := mkLimiter default_limit {[ "198.51.100.1"%string := [0%Q] ]} in
  requests (is_rate_limited 600 600 "198.51.100.2" self).2
    !! "198.51.100.1"%string = None /\
  is_Some (requests (is_rate_limited 450 450 "198.51.100.2" self).2
    !! "198.51.100.1"%string).
Proof.
  cbn zeta. split.
  - destruct (cleanup_when_sampled
      (mkLimiter default_limit {[ "198.51.100.1"%string := [0%Q] ]})
      600 600 "198.51.100.2" "198.51.100.1") as (H & _ & _).
    rewrite H; [vm_compute; reflexivity|vm_compute; reflexivity|reflexivity].
  - destruct (cleanup_when_sampled
      (mkLimiter default_limit {[ "198.51.100.1"%string := [0%Q] ]})
      450 450 "198.51.100.2" "198.51.100.1") as (_ & _ & H).
    apply H; [right; vm_compute; discriminate|].
    exists [0%Q]. vm_compute. reflexivity.
Defined.

End RateLimiterFacts.

(** * Properties of the string operations *)

Module PyFacts.
Import Py.
Local Open Scope string_scope.

Ltac by_bits c :=
  destruct c as [[] [] [] [] [] [] [] []]; try discriminate; try reflexivity.

Lemma is_digit_plain (c : ascii) :
  is_digit c = true ->
  is_space c = false /\ Ascii.eqb c "_" = false /\ Ascii.eqb c "/" = false /\
  Ascii.eqb c "-" = false /\ Ascii.eqb c "+" = false.
Proof. by_bits c; intros _; repeat split. Qed.

Lemma uint_of_char_digit (c : ascii) (d : Decimal.uint) :
  is_digit c = true -> exists d', uint_of_char c (Some d) = Some d'.
Proof. by_bits c; intros _; eexists; reflexivity. Qed.

Lemma lstrip_digits (s : string) : all_digits s = true -> lstrip s = s.
Proof.
  destruct s as [|c s]; [reflexivity|]. cbn [all_digits lstrip].
  intros H. apply andb_true_iff in H as [Hc _].
  apply is_digit_plain in Hc as (-> & _). reflexivity.
Qed.

Lemma rstrip_digits (s : string) : all_digits s = true -> rstrip s = s.
Proof.
  induction s as [|c s IH]; [reflexivity|]. cbn [all_digits rstrip].
  intros H. apply andb_true_iff in H as [Hc Hs].
  rewrite (IH Hs). apply is_digit_plain in Hc as (-> & _).
  destruct s; reflexivity.
Qed.

Lemma ungroup_digits (s : string) :
  all_digits s = true -> ungroup true s = Some s.
Proof.
  induction s as [|c s IH]; [reflexivity|]. cbn [all_digits ungroup].
  intros H. apply andb_true_iff in H as [Hc Hs].
  apply is_digit_plain in Hc as (_ & -> & _). rewrite (IH Hs). reflexivity.
Qed.

Lemma uint_of_digits (s : string) :
  all_digits s = true -> exists d, NilEmpty.uint_of_string s = Some d.
Proof.
  induction s as [|c s IH]; [exists Decimal.Nil; reflexivity|].
  cbn [all_digits NilEmpty.uint_of_string].
  intros H. apply andb_true_iff in H as [Hc Hs].
  destruct (IH Hs) as [d ->]. apply uint_of_char_digit, Hc.
Qed.

(** On a string of digits [int] reads the decimal number. *)
Lemma py_int_digits (s : string) (d : Decimal.uint) :
  isdigit s = true -> NilEmpty.uint_of_string s = Some d ->
  py_int s = Some (Z.of_uint d).
Proof.
  destruct s as [|c s]; [discriminate|]. cbn [isdigit]. intros Hs Hd.
  unfold py_int, strip. rewrite (lstrip_digits _ Hs), (rstrip_digits _ Hs).
  assert (Hgo : int_digits (String c s) = Some (Z.of_uint d)).
  { unfold int_digits. cbn [ungroup]. cbn [all_digits] in Hs.
    apply andb_true_iff in Hs as [Hc Hs'].
    apply is_digit_plain in Hc as (_ & -> & _).
    rewrite (ungroup_digits _ Hs'). cbn [fmap option_fmap option_map mbind option_bind].
    unfold NilZero.uint_of_string. rewrite Hd. reflexivity. }
  cbn [all_digits] in Hs. apply andb_true_iff in Hs as [Hc _].
  revert Hgo. by_bits c; intros ->; reflexivity.
Qed.

Lemma isdigit_py_int (s : string) :
  isdigit s = true -> exists n, py_int s = Some n.
Proof.
  intros H. assert (Ha : all_digits s = true) by (destruct s; [discriminate|exact H]).
  destruct (uint_of_digits s Ha) as [d Hd].
  exists (Z.of_uint d). apply py_int_digits; assumption.
Qed.

Lemma all_digits_of_uint (d : Decimal.uint) :
  all_digits (NilEmpty.string_of_uint d) = true.
Proof. induction d; cbn; auto. Qed.

(** The decimal text of a non-negative integer is a string of digits that
    [int] reads back. *)
Lemma str_of_int_digits (n : Z) :
  (0 <= n)%Z ->
  all_digits (str_of_int n) = true /\ isdigit (str_of_int n) = true /\
  py_int (str_of_int n) = Some n.
Proof.
  intros Hn. unfold str_of_int.
  assert (E : exists d, Z.to_int n = Decimal.Pos d /\ d <> Decimal.Nil).
  { destruct n as [|p|p]; [| |lia].
    - exists (Decimal.D0 Decimal.Nil). split; [reflexivity|discriminate].
    - exists (Pos.to_uint p). split; [reflexivity|apply Unsigned.to_uint_nonnil]. }
  destruct E as (d & E & Hd).
  pose proof (DecimalZ.of_to n) as Hback. rewrite E in *. cbn [Z.of_int] in Hback.
  cbn [NilZero.string_of_int].
  assert (Hs : NilZero.string_of_uint d = NilEmpty.string_of_uint d)
    by (destruct d; [contradiction|reflexivity..]).
  rewrite Hs.
  assert (Ha := all_digits_of_uint d).
  assert (Hi : isdigit (NilEmpty.string_of_uint d) = true)
    by (destruct d; [contradiction|exact Ha..]).
  split; [exact Ha|]. split; [exact Hi|].
  rewrite (py_int_digits _ d Hi (NilEmpty.usu d)), Hback. reflexivity.
Qed.

Lemma split_digits (s : string) :
  all_digits s = true -> split "/" s = [s].
Proof.
  induction s as [|c s IH]; [reflexivity|]. cbn [all_digits split].
  intros H. apply andb_true_iff in H as [Hc Hs].
  apply is_digit_plain in Hc as (_ & _ & -> & _). rewrite (IH Hs). reflexivity.
Qed.

Lemma prefix_app (p s : string) : String.prefix p (p ++ s) = true.
Proof.
  induction p as [|c p IH]; [destruct s; reflexivity|].
  change (String.prefix (String c p) (String c (p ++ s)) = true).
  cbn [String.prefix]. destruct (ascii_dec c c); [exact IH|congruence].
Qed.

Lemma replace_from_skip (old new a rest : string) :
  replace_from old new (String.length a) (a ++ rest)
  = replace_from old new 0 rest.
Proof.
  induction a as [|c a IH]; [destruct rest; reflexivity|]. exact IH.
Qed.

Lemma replace_from_absent (old new s : string) :
  contains old s = false -> replace_from old new 0 s = s.
Proof.
  induction s as [|c s IH]; [reflexivity|]. cbn [contains replace_from].
  intros H. apply orb_false_iff in H as [Hp Hc].
  rewrite Hp, (IH Hc). reflexivity.
Qed.

(** Replacing [old] by nothing strips it from the front of a string that
    holds no other occurrence of it. *)
Lemma replace_strips_prefix (old rest : string) :
  old <> "" -> contains old rest = false ->
  replace old "" (old ++ rest) = rest.
Proof.
  intros Hne Hc. unfold replace.
  destruct old as [|c o]; [congruence|].
  replace (String c o =? "")%string with false by reflexivity.
  change (String c o ++ rest) with (String c (o ++ rest)).
  cbn [replace_from].
  change (String c (o ++ rest)) with (String c o ++ rest).
  rewrite prefix_app. cbn [String.length].
  replace (S (String.length o) - 1)%nat with (String.length o) by lia.
  rewrite replace_from_skip, (replace_from_absent _ _ _ Hc). reflexivity.
Qed.

End PyFacts.

(** * Properties of the upstream client *)

Module ClientFacts.
Import Py Client PyFacts.
Local Open Scope string_scope.

(** ** One iteration of the retry loop *)

Section RetryLoop.
Variable self : RickAndMortyClient.
Variables url resource_type : string.
Variable resource_id : option Z.

Let loop := attempts self url resource_type resource_id.

Lemma step_exhausted (n : nat) (a : Z) (w : world) :
  script w = [] -> loop (S n) a w = (Stuck, w).
Proof.
  intros Hs. unfold loop. cbn [attempts]. unfold bind, session_get.
  rewrite Hs. reflexivity.
Qed.

Lemma step_5xx (n : nat) (a : Z) (w : world) (o : outcome) (rest : list outcome) :
  script w = o :: rest -> server_error o = true ->
  loop (S n) a w =
  if (a =? max_retries self)%Z
  then (Raise ServerError, answered url w rest)
  else loop n (a + 1)%Z (rested url w rest (2 ^ a)%Z).
Proof.
  intros Hs Ho. unfold loop. cbn [attempts]. unfold bind at 1, session_get.
  rewrite Hs. destruct o as [st h b|e]; [|discriminate].
  cbn [server_error] in Ho. apply andb_true_iff in Ho as [Hlo Hhi].
  apply Z.leb_le in Hlo. apply Z.ltb_lt in Hhi.
  replace (st =? 429)%Z with false by (symmetry; apply Z.eqb_neq; lia).
  replace (st =? 404)%Z with false by (symmetry; apply Z.eqb_neq; lia).
  replace (500 <=? st)%Z with true by (symmetry; apply Z.leb_le; lia).
  replace (st <? 600)%Z with true by (symmetry; apply Z.ltb_lt; lia).
  cbn [andb]. destruct (a =? max_retries self)%Z; reflexivity.
Qed.

Lemma step_429 (n : nat) (a : Z) (w : world) (o : outcome)
    (rest : list outcome) (retry_after : Z) :
  script w = o :: rest -> rate_limited o = Some retry_after ->
  loop (S n) a w =
  if (a =? max_retries self)%Z
  then (Raise (RateLimitError retry_after), answered url w rest)
  else loop n (a + 1)%Z (rested url w rest retry_after).
Proof.
  intros Hs Ho. unfold loop. cbn [attempts]. unfold bind at 1, session_get.
  rewrite Hs. destruct o as [st h b|e]; [|discriminate].
  cbn [rate_limited] in Ho. destruct (st =? 429)%Z; [|discriminate].
  rewrite Ho. unfold or_raise, bind at 1, ret.
  destruct (a =? max_retries self)%Z; reflexivity.
Qed.

Lemma step_404 (n : nat) (a : Z) (w : world) (h : option string)
    (b : payload) (rest : list outcome) :
  script w = Response 404 h b :: rest ->
  loop (S n) a w
  = (Raise (NotFoundError resource_type resource_id), answered url w rest).
Proof.
  intros Hs. unfold loop. cbn [attempts]. unfold bind at 1, session_get.
  rewrite Hs. reflexivity.
Qed.

Lemma step_200 (n : nat) (a : Z) (w : world) (h : option string)
    (j : json) (rest : list outcome) :
  script w = Response 200 h (Json j) :: rest ->
  loop (S n) a w = (Ret j, answered url w rest).
Proof.
  intros Hs. unfold loop. cbn [attempts]. unfold bind at 1, session_get.
  rewrite Hs. reflexivity.
Qed.

(** [k] server errors in a row, none of them on the last attempt: the
    loop sleeps 2^a, 2^(a+1), ... and goes on. *)
Lemma run_5xx (fives tail : list outcome) :
  forall (n : nat) (a : Z) (req : list string) (sl : list Z),
    Forall (fun o => server_error o = true) fives ->
    (a + Z.of_nat (length fives) <= max_retries self)%Z ->
    loop (length fives + n) a (mkWorld (fives ++ tail) req sl) =
    loop n (a + Z.of_nat (length fives))%Z
      (mkWorld tail (req ++ repeat url (length fives))
         (sl ++ backoffs a (length fives))).
Proof.
  induction fives as [|o fives IH]; intros n a req sl Hall Hroom.
  - cbn [length Nat.add repeat backoffs app]. rewrite !app_nil_r, Z.add_0_r.
    reflexivity.
  - inversion Hall as [|? ? Ho Hall']; subst.
    cbn [length] in Hroom.
    cbn [length Nat.add app].
    rewrite (step_5xx _ _ _ o (fives ++ tail)) by (reflexivity || assumption).
    replace (a =? max_retries self)%Z with false
      by (symmetry; apply Z.eqb_neq; lia).
    unfold rested. cbn [script requested sleeps].
    rewrite IH by (assumption || lia).
    cbn [repeat backoffs]. rewrite <- !app_assoc. cbn [app].
    f_equal. lia.
Qed.

(** Likewise for rate-limit responses: the loop sleeps what each header
    asks for. *)
Lemma run_429 (limited tail : list outcome) :
  forall (delays : list Z) (n : nat) (a : Z) (req : list string) (sl : list Z),
    Forall2 (fun o d => rate_limited o = Some d) limited delays ->
    (a + Z.of_nat (length limited) <= max_retries self)%Z ->
    loop (length limited + n) a (mkWorld (limited ++ tail) req sl) =
    loop n (a + Z.of_nat (length limited))%Z
      (mkWorld tail (req ++ repeat url (length limited)) (sl ++ delays)).
Proof.
  induction limited as [|o limited IH]; intros delays n a req sl Hall Hroom.
  - inversion Hall; subst.
    cbn [length Nat.add repeat app]. rewrite !app_nil_r, Z.add_0_r.
    reflexivity.
  - inversion Hall as [|? d ? delays' Ho Hall']; subst.
    cbn [length] in Hroom.
    cbn [length Nat.add app].
    rewrite (step_429 _ _ _ o (limited ++ tail) d) by (reflexivity || assumption).
    replace (a =? max_retries self)%Z with false
      by (symmetry; apply Z.eqb_neq; lia).
    unfold rested. cbn [script requested sleeps].
    rewrite (IH delays') by (assumption || lia).
    cbn [repeat]. rewrite <- !app_assoc. cbn [app].
    f_equal. lia.
Qed.

(** With at least one attempt allowed the loop never runs off its end: a
    value it returns is the body of a 200 response it received. *)
Lemma loop_returns_body (n : nat) :
  forall (a : Z) (w w' : world) (j : json),
    (a + Z.of_nat n = max_retries self + 1)%Z -> (1 <= n)%nat ->
    loop n a w = (Ret j, w') ->
    (exists h, In (Response 200 h (Json j)) (script w)) /\
    (length (requested w) < length (requested w'))%nat.
Proof.
  induction n as [|n IH]; intros a w w' j Hinv Hn; [lia|].
  unfold loop. cbn [attempts]. unfold bind at 1, session_get.
  destruct (script w) as [|o rest] eqn:Hs; [discriminate|].
  assert (Hretry : forall seconds,
            a <> max_retries self ->
            loop n (a + 1)%Z (rested url w rest seconds) = (Ret j, w') ->
            (exists h, In (Response 200 h (Json j)) (o :: rest)) /\
            (length (requested w) < length (requested w'))%nat).
  { intros seconds Ha E. apply IH in E; [|lia|lia].
    destruct E as [[h Hin] Hlen]. cbn [script requested rested] in *.
    split; [exists h; right; exact Hin|].
    rewrite length_app in Hlen. cbn [length] in Hlen. lia. }
  assert (Hhandler : forall e,
            on_client_error self a (loop n (a + 1)%Z) e (answered url w rest)
              = (Ret j, w') ->
            (exists h, In (Response 200 h (Json j)) (o :: rest)) /\
            (length (requested w) < length (requested w'))%nat).
  { intros e. unfold on_client_error.
    destruct (Z.ltb_spec a (max_retries self)); [|discriminate].
    unfold bind, sleep. cbn [answered script requested sleeps].
    apply Hretry. lia. }
  fold loop. destruct o as [st h b|e]; [|apply Hhandler].
  destruct (Z.eqb_spec st 429).
  { unfold or_raise. destruct (retry_after_of h); [|discriminate].
    unfold bind at 1, ret. destruct (Z.eqb_spec a (max_retries self));
      [discriminate|]. unfold bind, sleep. apply Hretry. assumption. }
  destruct (Z.eqb_spec st 404); [discriminate|].
  destruct ((500 <=? st)%Z && (st <? 600)%Z).
  { destruct (Z.eqb_spec a (max_retries self)); [discriminate|].
    unfold bind, sleep. apply Hretry. assumption. }
  destruct (Z.eqb_spec st 200) as [->|]; cbn [negb]; unfold with_json.
  - destruct b; [|apply Hhandler|discriminate].
    unfold ret. intros [= <- <-]. split.
    + exists h. left. reflexivity.
    + cbn [answered requested]. rewrite length_app. cbn [length]. lia.
  - destruct b; [|apply Hhandler|discriminate].
    unfold bind, or_raise. destruct (py_get _ _ _); discriminate.
Qed.

End RetryLoop.

(** ** [_make_request] *)

(** Reading the numeric id off an endpoint never fails. *)
Lemma resource_id_total (endpoint : string) :
  exists rid, forall w, resource_id_of endpoint w = (Ret rid, w).
Proof.
  unfold resource_id_of.
  destruct (split "/" endpoint) as [|first [|part more]];
    try (exists None; reflexivity).
  destruct (isdigit part) eqn:Hd; [|exists None; reflexivity].
  destruct (isdigit_py_int part Hd) as [n Hn].
  exists (Some n). intros w. rewrite Hn. reflexivity.
Qed.

(** With a session, a request is the retry loop started at attempt 1. *)
Lemma make_request_loop (self : RickAndMortyClient) (endpoint : string) :
  session self = true ->
  exists rid, forall w,
    _make_request self endpoint w =
    attempts self (url_of endpoint) (resource_type_of endpoint) rid
      (Z.to_nat (max_retries self)) 1%Z w.
Proof.
  intros Hs. destruct (resource_id_total endpoint) as [rid Hrid].
  exists rid. intros w. unfold _make_request. rewrite Hs. cbn [negb].
  unfold bind. rewrite Hrid. reflexivity.
Qed.

(** C2: a 5xx response on an attempt that is not the last makes the client
    sleep 2^attempt seconds and retry, on the last allowed attempt it makes
    the request fail with ServerError at once.  So [k] server errors
    followed by a 200 response, with [k] below [max_retries], give the
    sleeps 2, 4, ..., 2^k and then the parsed body; [max_retries] server
    errors give ServerError after the sleeps 2, ..., 2^(max_retries-1) and
    leave the rest of the script untouched.  With the default three
    attempts, statuses 500, 500, 200 give the sleeps 2 and 4 and the body,
    and 500, 500, 500 give ServerError. *)
Theorem server_error_backoff (self : RickAndMortyClient) (endpoint : string)
    (fives tail : list outcome) (hdr : option string) (j : json)
    (req : list string) (sl : list Z) :
  session self = true ->
  Forall (fun o => server_error o = true) fives ->
  let k := length fives in
  let url := url_of endpoint in
  (forall rt rid n a w o rest,
     script w = o :: rest -> server_error o = true ->
     attempts self url rt rid (S n) a w =
     if (a =? max_retries self)%Z
     then (Raise ServerError, answered url w rest)
     else attempts self url rt rid n (a + 1)%Z (rested url w rest (2 ^ a)%Z)) /\
  ((Z.of_nat k < max_retries self)%Z ->
     _make_request self endpoint
       (mkWorld (fives ++ Response 200 hdr (Json j) :: tail) req sl)
     = (Ret j, mkWorld tail (req ++ repeat url (S k)) (sl ++ backoffs 1 k))) /\
  ((Z.of_nat k = max_retries self)%Z -> (1 <= k)%nat ->
     _make_request self endpoint (mkWorld (fives ++ tail) req sl)
     = (Raise ServerError,
        mkWorld tail (req ++ repeat url k) (sl ++ backoffs 1 (k - 1)))) /\
  (forall body,
     _make_request default_client endpoint
       (start [Response 500 None body; Response 500 None body;
               Response 200 None (Json j)])
     = (Ret j, mkWorld [] [url; url; url] [2; 4]%Z)) /\
  (forall body,
     _make_request default_client endpoint
       (start ([Response 500 None body; Response 500 None body;
                Response 500 None body] ++ tail))
     = (Raise ServerError, mkWorld tail [url; url; url] [2; 4]%Z)).
Proof.
  intros Hs Hall. cbn zeta.
  destruct (make_request_loop self endpoint Hs) as [rid Hreq].
  destruct (make_request_loop default_client endpoint eq_refl) as [rid' Hreq'].
  split; [intros; eapply step_5xx; eassumption|].
  split; [|split; [|split]].
  - intros Hk. rewrite Hreq.
    replace (Z.to_nat (max_retries self))
      with (length fives + S (Z.to_nat (max_retries self) - S (length fives)))%nat
      by lia.
    rewrite run_5xx by (assumption || lia).
    rewrite (step_200 _ _ _ _ _ _ _ hdr j tail) by reflexivity.
    unfold answered. cbn [requested sleeps].
    rewrite <- app_assoc, <- repeat_cons. reflexivity.
  - intros Hk Hpos. rewrite Hreq.
    destruct (exists_last (l := fives)) as (front & o & ->);
      [intros ->; cbn in Hpos; lia|].
    apply Forall_app in Hall as [Hfront Ho].
    inversion Ho as [|? ? Ho' _]; subst.
    rewrite length_app in *. cbn [length] in *.
    rewrite <- app_assoc. cbn [app].
    replace (Z.to_nat (max_retries self)) with (length front + 1)%nat by lia.
    rewrite run_5xx by (assumption || lia).
    rewrite (step_5xx _ _ _ _ _ _ _ o tail) by (reflexivity || assumption).
    replace (1 + Z.of_nat (length front) =? max_retries self)%Z with true
      by (symmetry; apply Z.eqb_eq; lia).
    unfold answered. cbn [requested sleeps].
    rewrite <- app_assoc, <- repeat_cons.
    replace (length front + 1 - 1)%nat with (length front) by lia.
    replace (length front + 1)%nat with (S (length front)) by lia.
    reflexivity.
  - intros body. rewrite Hreq'. reflexivity.
  - intros body. rewrite Hreq'. reflexivity.
Qed.

Lemma server_error_backoff_witness :
  _make_request default_client "character/1"
    (start [Response 500 None NotJson; Response 503 None NotJson;
            Response 200 None (Json (JObj [("id", JNum 1)]))])
  = (Ret (JObj [("id", JNum 1)]),
     mkWorld [] (repeat (url_of "character/1") 3) [2; 4]%Z).
Proof.
  destruct (server_error_backoff default_client "character/1"
              [Response 500 None NotJson; Response 503 None NotJson] []
              None (JObj [("id", JNum 1)]) [] [] eq_refl)
    as (_ & H & _).
  - repeat constructor.
  - apply H. reflexivity.
Defined.

(** C4: on a 429 response the delay is the integer in the Retry-After
    header, or 60 when the header is absent; on the last allowed attempt
    the request fails with RateLimitError carrying that delay, on an
    earlier attempt the client sleeps exactly that delay (no power of two)
    and retries.  So rate-limit responses followed by a 200 response give
    the delays of the headers as sleeps and then the body, and a run of
    [max_retries] of them gives RateLimitError with the last delay.  With
    Retry-After 5 on attempt 1 of 3 the client sleeps 5 seconds and
    retries. *)
Theorem rate_limit_retry_after (self : RickAndMortyClient) (endpoint : string)
    (limited tail : list outcome) (delays : list Z) (hdr : option string)
    (j : json) (req : list string) (sl : list Z) :
  session self = true ->
  Forall2 (fun o d => rate_limited o = Some d) limited delays ->
  let k := length limited in
  let url := url_of endpoint in
  retry_after_of None = Some 60%Z /\
  (forall status body, rate_limited (Response status None body) = Some 60%Z
                       <-> status = 429%Z) /\
  (forall rt rid n a w o rest d,
     script w = o :: rest -> rate_limited o = Some d ->
     attempts self url rt rid (S n) a w =
     if (a =? max_retries self)%Z
     then (Raise (RateLimitError d), answered url w rest)
     else attempts self url rt rid n (a + 1)%Z (rested url w rest d)) /\
  ((Z.of_nat k < max_retries self)%Z ->
     _make_request self endpoint
       (mkWorld (limited ++ Response 200 hdr (Json j) :: tail) req sl)
     = (Ret j, mkWorld tail (req ++ repeat url (S k)) (sl ++ delays))) /\
  (forall o d,
     (Z.of_nat k + 1 = max_retries self)%Z -> rate_limited o = Some d ->
     _make_request self endpoint (mkWorld (limited ++ o :: tail) req sl)
     = (Raise (RateLimitError d),
        mkWorld tail (req ++ repeat url (S k)) (sl ++ delays))) /\
  (forall body,
     _make_request default_client endpoint
       (start [Response 429 (Some "5") body; Response 200 None (Json j)])
     = (Ret j, mkWorld [] [url; url] [5]%Z)).
Proof.
  intros Hs Hall. cbn zeta.
  destruct (make_request_loop self endpoint Hs) as [rid Hreq].
  destruct (make_request_loop default_client endpoint eq_refl) as [rid' Hreq'].
  pose proof (Forall2_length _ _ _ Hall) as Hlen.
  split; [reflexivity|].
  split.
  { intros status body. cbn [rate_limited retry_after_of].
    destruct (Z.eqb_spec status 429); split; congruence. }
  split; [intros; eapply step_429; eassumption|].
  split; [|split].
  - intros Hk. rewrite Hreq.
    replace (Z.to_nat (max_retries self))
      with (length limited + S (Z.to_nat (max_retries self) - S (length limited)))%nat
      by lia.
    rewrite (run_429 _ _ _ _ _ _ delays) by (assumption || lia).
    rewrite (step_200 _ _ _ _ _ _ _ hdr j tail) by reflexivity.
    unfold answered. cbn [requested sleeps].
    rewrite <- app_assoc, <- repeat_cons. reflexivity.
  - intros o d Hk Ho. rewrite Hreq.
    replace (Z.to_nat (max_retries self)) with (length limited + 1)%nat by lia.
    rewrite (run_429 _ _ _ _ _ _ delays) by (assumption || lia).
    rewrite (step_429 _ _ _ _ _ _ _ o tail d) by (reflexivity || assumption).
    replace (1 + Z.of_nat (length limited) =? max_retries self)%Z with true
      by (symmetry; apply Z.eqb_eq; lia).
    unfold answered. cbn [requested sleeps].
    rewrite <- app_assoc, <- repeat_cons. reflexivity.
  - intros body. rewrite Hreq'. reflexivity.
Qed.

Lemma rate_limit_retry_after_witness :
  _make_request default_client "episode/7"
    (start [Response 429 (Some "5") NotJson; Response 429 None NotJson;
            Response 429 (Some " 12 ") NotJson])
  = (Raise (RateLimitError 12),
     mkWorld [] (repeat (url_of "episode/7") 3) [5; 60]%Z).
Proof.
  destruct (rate_limit_retry_after default_client "episode/7"
              [Response 429 (Some "5") NotJson; Response 429 None NotJson] []
              [5; 60]%Z None JNull [] [] eq_refl)
    as (_ & _ & _ & _ & H & _).
  - repeat constructor.
  - apply (H (Response 429 (Some " 12 ") NotJson) 12%Z); reflexivity.
Defined.

(** C10: with [max_retries = 0] (or below) and a session, the loop body
    never runs: no request is made, nothing is slept, no error is raised
    and the result is [None].  With [max_retries >= 1] a returned value is
    always the body of a 200 response received during the call. *)
Theorem zero_retries_returns_none (self : RickAndMortyClient)
    (endpoint : string) (w : world) :
  session self = true ->
  ((max_retries self <= 0)%Z ->
     _make_request self endpoint w = (Ret JNull, w)) /\
  ((1 <= max_retries self)%Z ->
     forall j w', _make_request self endpoint w = (Ret j, w') ->
       (exists h, In (Response 200 h (Json j)) (script w)) /\
       (length (requested w) < length (requested w'))%nat).
Proof.
  intros Hs. destruct (make_request_loop self endpoint Hs) as [rid Hreq].
  split.
  - intros Hz. rewrite Hreq.
    replace (Z.to_nat (max_retries self)) with 0%nat by lia. reflexivity.
  - intros Hpos j w'. rewrite Hreq. apply loop_returns_body; lia.
Qed.

Lemma zero_retries_returns_none_witness :
  _make_request (mkClient true 0 10) "character/1"
    (start [Response 200 None (Json (JObj [("id", JNum 1)]))])
  = (Ret JNull, start [Response 200 None (Json (JObj [("id", JNum 1)]))]).
Proof.
  destruct (zero_retries_returns_none (mkClient true 0 10) "character/1"
              (start [Response 200 None (Json (JObj [("id", JNum 1)]))])
              eq_refl) as [H _].
  apply H. cbn. lia.
Defined.

(** ** Not found *)

Lemma split_at_slash (a s : string) :
  absent "/" a = true -> split "/" (a ++ String "/" s) = a :: split "/" s.
Proof.
  induction a as [|c a IH]; intros Ha.
  - reflexivity.
  - cbn [absent] in Ha. apply andb_true_iff in Ha as [Hc Ha].
    apply negb_true_iff in Hc.
    change (String c a ++ String "/" s) with (String c (a ++ String "/" s)).
    cbn [split]. rewrite Hc, (IH Ha). reflexivity.
Qed.

(** The endpoint of a resource with a non-negative id names its type and
    that id. *)
Lemma resource_of_endpoint (kind : string) (id : Z) :
  absent "/" kind = true -> (0 <= id)%Z ->
  resource_type_of (kind ++ "/" ++ str_of_int id) = kind /\
  forall w, resource_id_of (kind ++ "/" ++ str_of_int id) w = (Ret (Some id), w).
Proof.
  intros Hk Hid. destruct (str_of_int_digits id Hid) as (Ha & Hd & Hi).
  unfold resource_type_of, resource_id_of.
  change (kind ++ "/" ++ str_of_int id)
    with (kind ++ String "/" (str_of_int id)).
  rewrite (split_at_slash _ _ Hk), (split_digits _ Ha).
  split; [reflexivity|]. intros w. rewrite Hd, Hi. reflexivity.
Qed.

Lemma fetch_one_404 (self : RickAndMortyClient) (kind : string) (id : Z)
    (w : world) (h : option string) (b : payload) (rest : list outcome) :
  session self = true -> (1 <= max_retries self)%Z ->
  absent "/" kind = true -> (0 <= id)%Z ->
  script w = Response 404 h b :: rest ->
  _make_request self (kind ++ "/" ++ str_of_int id) w
  = (Raise (NotFoundError kind (Some id)),
     answered (url_of (kind ++ "/" ++ str_of_int id)) w rest).
Proof.
  intros Hs Hmax Hk Hid Hw.
  destruct (resource_of_endpoint kind id Hk Hid) as [Hrt Hrid].
  unfold _make_request. rewrite Hs. cbn [negb]. unfold bind at 1.
  rewrite Hrid, Hrt.
  replace (Z.to_nat (max_retries self))
    with (S (Z.to_nat (max_retries self) - 1)) by lia.
  eapply step_404. exact Hw.
Qed.

(** The decimal text of a negative integer is a minus sign followed by
    digits. *)
Lemma str_of_int_negative (n : Z) :
  (n < 0)%Z ->
  exists ds, str_of_int n = String "-" ds /\ all_digits ds = true.
Proof.
  intros Hn. destruct n as [|p|p]; [lia|lia|].
  unfold str_of_int. cbn [Z.to_int NilZero.string_of_int].
  exists (NilZero.string_of_uint (Pos.to_uint p)). split; [reflexivity|].
  pose proof (Unsigned.to_uint_nonnil p) as Hd.
  destruct (Pos.to_uint p) as [|d|d|d|d|d|d|d|d|d|d] eqn:E;
    [contradiction|..];
    apply (all_digits_of_uint (_ d)).
Qed.

(** The endpoint of a resource with a negative id names its type and no
    id: the segment after the slash starts with a minus sign, which
    [isdigit] refuses. *)
Lemma resource_of_negative (kind : string) (id : Z) :
  absent "/" kind = true -> (id < 0)%Z ->
  resource_type_of (kind ++ "/" ++ str_of_int id) = kind /\
  forall w, resource_id_of (kind ++ "/" ++ str_of_int id) w = (Ret None, w).
Proof.
  intros Hk Hid. destruct (str_of_int_negative id Hid) as (ds & -> & Ha).
  unfold resource_type_of, resource_id_of.
  change (kind ++ "/" ++ String "-" ds)
    with (kind ++ String "/" (String "-" ds)).
  rewrite (split_at_slash _ _ Hk). cbn [split].
  change (Ascii.eqb "-" "/") with false. cbv iota.
  rewrite (split_digits _ Ha).
  split; reflexivity.
Qed.

(** The id a NotFoundError of the client carries for the requested [id]. *)
Lemma fetch_one_404_any (self : RickAndMortyClient) (kind : string) (id : Z)
    (w : world) (h : option string) (b : payload) (rest : list outcome) :
  session self = true -> (1 <= max_retries self)%Z ->
  absent "/" kind = true ->
  script w = Response 404 h b :: rest ->
  _make_request self (kind ++ "/" ++ str_of_int id) w
  = (Raise (NotFoundError kind (if (0 <=? id)%Z then Some id else None)),
     answered (url_of (kind ++ "/" ++ str_of_int id)) w rest).
Proof.
  intros Hs Hmax Hk Hw.
  destruct (Z.leb_spec 0 id) as [Hid|Hid].
  - eapply fetch_one_404; eassumption.
  - destruct (resource_of_negative kind id Hk Hid) as [Hrt Hrid].
    unfold _make_request. rewrite Hs. cbn [negb]. unfold bind at 1.
    rewrite Hrid, Hrt.
    replace (Z.to_nat (max_retries self))
      with (S (Z.to_nat (max_retries self) - 1)) by lia.
    eapply step_404. exact Hw.
Qed.

(** C3, as claimed, fails on a negative id: [get_character(-5)] builds the
    endpoint [character/-5], whose second segment is not purely numeric
    ('-5'.isdigit() is False), so the 404 raises
    NotFoundError('character', None): the error carries the resource type
    but not the id. *)
Lemma negative_id_not_carried :
  get_character default_client (-5)
    (start [Response 404 None (Json (JObj [("error", JStr "Character not found")]))])
  = (Raise (NotFoundError "character" None),
     mkWorld [] ["https://rickandmortyapi.com/api/character/-5"] []) /\
  resource_id_of "character/-5" (start []) = (Ret None, start []) /\
  NotFoundError "character" None <> NotFoundError "character" (Some (-5)%Z).
Proof. split; [reflexivity|]. split; [reflexivity|discriminate]. Qed.

(** C3, amended: when upstream answers 404, [get_character],
    [get_location] and [get_episode] fail at once with NotFoundError, after
    a single request and no sleep; the error carries the resource type and,
    when the id is non-negative, the id, while for a negative id it carries
    no id.  A 404 ends the request in the same way on whatever attempt it
    arrives.  [get_all_resources], whose first page request is answered
    404, returns the empty list, and never fails with NotFoundError
    whatever happens. *)
Theorem not_found_policy (self : RickAndMortyClient) (id : Z)
    (h : option string) (b : payload) (rest : list outcome)
    (req : list string) (sl : list Z) (resource_type : string) (fuel : nat) :
  session self = true -> (1 <= max_retries self)%Z ->
  let w := mkWorld (Response 404 h b :: rest) req sl in
  let after endpoint := mkWorld rest (req ++ [url_of endpoint]) sl in
  let carried := if (0 <=? id)%Z then Some id else None in
  get_character self id w
  = (Raise (NotFoundError "character" carried),
     after ("character/" ++ str_of_int id)) /\
  get_location self id w
  = (Raise (NotFoundError "location" carried),
     after ("location/" ++ str_of_int id)) /\
  get_episode self id w
  = (Raise (NotFoundError "episode" carried),
     after ("episode/" ++ str_of_int id)) /\
  (forall url rt rid n a w0 h0 b0 rest0,
     script w0 = Response 404 h0 b0 :: rest0 ->
     attempts self url rt rid (S n) a w0
     = (Raise (NotFoundError rt rid), answered url w0 rest0)) /\
  (resource_type <> "" ->
     get_all_resources self (S fuel) resource_type w
     = (Ret [], after resource_type)) /\
  (forall fuel' endpoint w0 t i,
     (get_all_resources self fuel' endpoint w0).1 <> Raise (NotFoundError t i)).
Proof.
  intros Hs Hmax. cbn zeta.
  split; [|split; [|split; [|split; [|split]]]].
  - eapply (fetch_one_404_any self "character"); try assumption; reflexivity.
  - eapply (fetch_one_404_any self "location"); try assumption; reflexivity.
  - eapply (fetch_one_404_any self "episode"); try assumption; reflexivity.
  - intros; eapply step_404; eassumption.
  - intros Hne. unfold get_all_resources, except_not_found.
    cbn [pages]. apply String.eqb_neq in Hne. rewrite Hne.
    destruct (make_request_loop self resource_type Hs) as [rid Hreq].
    unfold bind at 1. rewrite Hreq.
    replace (Z.to_nat (max_retries self))
      with (S (Z.to_nat (max_retries self) - 1)) by lia.
    rewrite (step_404 _ _ _ _ _ _ _ h b rest) by reflexivity.
    reflexivity.
  - intros fuel' endpoint w0 t i.
    unfold get_all_resources, except_not_found.
    destruct (pages self fuel' [] endpoint w0) as [[a|e|] w1]; cbn [fst];
      try discriminate.
    destruct e; cbn [fst]; discriminate.
Qed.

Lemma not_found_policy_witness :
  get_character default_client 9999
    (start [Response 404 None (Json (JObj [("error", JStr "Character not found")]))])
  = (Raise (NotFoundError "character" (Some 9999%Z)),
     mkWorld [] ["https://rickandmortyapi.com/api/character/9999"] []) /\
  get_episode default_client (-5)
    (start [Response 404 None NotJson])
  = (Raise (NotFoundError "episode" None),
     mkWorld [] ["https://rickandmortyapi.com/api/episode/-5"] []) /\
  get_all_resources default_client 1 "character/?name=nobody"
    (start [Response 404 None (Json (JObj [("error", JStr "There is nothing here")]))])
  = (Ret [],
     mkWorld [] ["https://rickandmortyapi.com/api/character/?name=nobody"] []).
Proof.
  destruct (not_found_policy default_client 9999 None
              (Json (JObj [("error", JStr "Character not found")])) [] [] []
              "character" 0 eq_refl) as (H & _); [cbn; lia|].
  destruct (not_found_policy default_client (-5) None NotJson [] [] []
              "episode" 0 eq_refl) as (_ & _ & H'' & _); [cbn; lia|].
  destruct (not_found_policy default_client 0 None
              (Json (JObj [("error", JStr "There is nothing here")])) [] [] []
              "character/?name=nobody" 0 eq_refl) as (_ & _ & _ & _ & H' & _);
    [cbn; lia|].
  split; [exact H|]. split; [exact H''|]. apply H'. discriminate.
Defined.

(** ** Pagination *)

Section Pagination.
Variable self : RickAndMortyClient.
Hypothesis Hsession : session self = true.
Hypothesis Hretries : (1 <= max_retries self)%Z.

Lemma make_request_200 (endpoint : string) (w : world) (h : option string)
    (d : json) (rest : list outcome) :
  script w = Response 200 h (Json d) :: rest ->
  _make_request self endpoint w = (Ret d, answered (url_of endpoint) w rest).
Proof.
  intros Hw. destruct (make_request_loop self endpoint Hsession) as [rid ->].
  replace (Z.to_nat (max_retries self))
    with (S (Z.to_nat (max_retries self) - 1)) by lia.
  eapply step_200. exact Hw.
Qed.

Lemma make_request_404 (endpoint : string) (w : world) (h : option string)
    (b : payload) (rest : list outcome) :
  script w = Response 404 h b :: rest ->
  exists rid,
    _make_request self endpoint w
    = (Raise (NotFoundError (resource_type_of endpoint) rid),
       answered (url_of endpoint) w rest).
Proof.
  intros Hw. destruct (make_request_loop self endpoint Hsession) as [rid Hreq].
  exists rid. rewrite Hreq.
  replace (Z.to_nat (max_retries self))
    with (S (Z.to_nat (max_retries self) - 1)) by lia.
  eapply step_404. exact Hw.
Qed.

(** One turn of the loop on a page that reads as [its] and [nxt]. *)
Lemma pages_step (fuel : nat) (acc : list json) (endpoint : string)
    (w : world) (h : option string) (d : json) (rest : list outcome)
    (its : list json) (nxt : json) :
  endpoint <> "" ->
  script w = Response 200 h (Json d) :: rest ->
  page_of d = Some (its, nxt) ->
  pages self (S fuel) acc endpoint w =
  if truthy nxt then
    match nxt with
    | JStr link =>
        pages self fuel (acc ++ its) (replace (BASE_URL ++ "/") "" link)
          (answered (url_of endpoint) w rest)
    | _ => (Raise AttributeError, answered (url_of endpoint) w rest)
    end
  else (Ret (acc ++ its)%list, answered (url_of endpoint) w rest).
Proof.
  intros Hne Hw Hpage. cbn [pages].
  apply String.eqb_neq in Hne. rewrite Hne.
  unfold bind at 1. rewrite (make_request_200 _ _ _ _ _ Hw).
  unfold page_of in Hpage.
  destruct d as [| | | | |fields]; try discriminate.
  destruct (assoc "results" fields) as [[| | | |results|]|] eqn:Hres;
    try discriminate.
  destruct (default (JObj []) (assoc "info" fields)) as [| | | | |info] eqn:Hinfo;
    try discriminate.
  injection Hpage as <- <-.
  cbn [py_in py_get or_raise]. rewrite Hres. cbn [negb from_option id].
  unfold bind, ret, raise. cbn [py_extend or_raise]. rewrite Hinfo.
  cbn [py_get or_raise negb]. unfold ret. cbn [negb].
  destruct (default JNull (assoc "next" info)) as [|t|n|link|l|f];
    cbn [truthy negb]; cbn beta iota;
    repeat match goal with
           | |- context [if ?c then _ else _] => destruct c
           end; reflexivity.
Qed.


Lemma next_link_stripped (p : page) :
  well_formed p ->
  replace (BASE_URL ++ "/") "" (url_of (next_endpoint p)) = next_endpoint p /\
  truthy (JStr (url_of (next_endpoint p))) = true.
Proof.
  intros (_ & _ & Hc). split; [|reflexivity].
  change (url_of (next_endpoint p)) with ((BASE_URL ++ "/") ++ next_endpoint p).
  apply replace_strips_prefix; [discriminate|exact Hc].
Qed.

(** Walking pages that each name a successor: their results are appended
    and their endpoints requested in the order of the script. *)
Lemma pages_walk (tail : list outcome) (ps : list page) :
  forall (fuel : nat) (acc : list json) (first : string)
         (req : list string) (sl : list Z),
    first <> "" -> Forall well_formed ps ->
    pages self (length ps + fuel) acc first
      (mkWorld (map response_of ps ++ tail) req sl) =
    pages self fuel (acc ++ concat (map items ps)) (cursor first ps)
      (mkWorld tail (req ++ map url_of (visited first ps)) sl) /\
    cursor first ps <> "".
Proof.
  induction ps as [|p ps IH]; intros fuel acc first req sl Hne Hall.
  - cbn. rewrite !app_nil_r. auto.
  - inversion Hall as [|? ? Hp Hall']; subst.
    destruct (next_link_stripped p Hp) as [Hstrip Htrue].
    destruct Hp as (Hpage & Hnext & _).
    cbn [length Nat.add map app cursor visited concat].
    erewrite pages_step; [|exact Hne|reflexivity|exact Hpage].
    rewrite Htrue, Hstrip. unfold answered. cbn [requested sleeps].
    destruct (IH fuel (acc ++ items p)%list (next_endpoint p)
                (req ++ [url_of first])%list sl Hnext Hall') as [-> Hcur].
    rewrite <- !app_assoc. cbn [app]. auto.
Qed.

End Pagination.



(** C9: a 404 on a page after pages that were read and accumulated makes
    [get_all_resources] return the empty list: the NotFoundError raised
    inside the loop is caught by the handler around the whole loop, and
    what the earlier pages gave is dropped. *)
Theorem not_found_discards_pages (self : RickAndMortyClient) (first : string)
    (ps : list page) (h : option string) (b : payload) (tail : list outcome)
    (req : list string) (sl : list Z) (fuel : nat) :
  session self = true -> (1 <= max_retries self)%Z -> first <> "" ->
  Forall well_formed ps -> (length ps < fuel)%nat ->
  let w := mkWorld (map response_of ps ++ Response 404 h b :: tail) req sl in
  let finished :=
    mkWorld tail (req ++ map url_of (visited first ps ++ [cursor first ps])) sl in
  get_all_resources self fuel first w = (Ret [], finished) /\
  (exists rid,
     pages self fuel [] first w
     = (Raise (NotFoundError (resource_type_of (cursor first ps)) rid), finished)) /\
  (forall acc, exists rid,
     pages self (fuel - length ps) (acc ++ concat (map items ps)) (cursor first ps)
       (mkWorld (Response 404 h b :: tail)
          (req ++ map url_of (visited first ps)) sl)
     = (Raise (NotFoundError (resource_type_of (cursor first ps)) rid), finished)).
Proof.
  intros Hs Hmax Hne Hall Hfuel. cbn zeta.
  assert (Hstep : forall acc, exists rid,
    pages self (fuel - length ps) (acc ++ concat (map items ps)) (cursor first ps)
      (mkWorld (Response 404 h b :: tail)
         (req ++ map url_of (visited first ps)) sl)
    = (Raise (NotFoundError (resource_type_of (cursor first ps)) rid),
       mkWorld tail
         (req ++ map url_of (visited first ps ++ [cursor first ps])) sl)).
  { intros acc.
    destruct (pages_walk self Hs Hmax tail ps 0 [] first req sl Hne Hall)
      as [_ Hcur].
    replace (fuel - length ps)%nat with (S (fuel - length ps - 1)) by lia.
    cbn [pages]. apply String.eqb_neq in Hcur. rewrite Hcur.
    destruct (make_request_404 self Hs Hmax (cursor first ps)
                (mkWorld (Response 404 h b :: tail)
                   (req ++ map url_of (visited first ps)) sl) h b tail eq_refl)
      as [rid Hreq].
    exists rid. unfold bind at 1. rewrite Hreq.
    unfold answered. cbn [requested sleeps].
    rewrite map_app, app_assoc. reflexivity. }
  assert (Hloop : exists rid,
    pages self fuel [] first
      (mkWorld (map response_of ps ++ Response 404 h b :: tail) req sl)
    = (Raise (NotFoundError (resource_type_of (cursor first ps)) rid),
       mkWorld tail
         (req ++ map url_of (visited first ps ++ [cursor first ps])) sl)).
  { destruct (Hstep []) as [rid Hrid]. exists rid.
    replace fuel with (length ps + (fuel - length ps))%nat at 1 by lia.
    destruct (pages_walk self Hs Hmax (Response 404 h b :: tail) ps
                (fuel - length ps) [] first req sl Hne Hall) as [-> _].
    exact Hrid. }
  split; [|split; [exact Hloop|exact Hstep]].
  destruct Hloop as [rid Hrid].
  unfold get_all_resources, except_not_found. rewrite Hrid. reflexivity.
Qed.

Lemma not_found_discards_pages_witness :
  get_all_resources default_client 5 "episode"
    (start [Response 200 None
              (Json (collection_body
                       (JStr "https://rickandmortyapi.com/api/episode?page=2")
                       (numbered 1 20)));
            Response 404 None NotJson])
  = (Ret [], mkWorld [] [url_of "episode"; url_of "episode?page=2"] []).
Proof.
  destruct (not_found_discards_pages default_client "episode"
              [mkPage None
                 (collection_body
                    (JStr "https://rickandmortyapi.com/api/episode?page=2")
                    (numbered 1 20))
                 (numbered 1 20) "episode?page=2"]
              None NotJson [] [] [] 5 eq_refl) as (H & _).
  - cbn; lia.
  - discriminate.
  - repeat constructor; try discriminate; reflexivity.
  - cbn; lia.
  - exact H.
Defined.

(** ** Query strings *)

Lemma split_absent (c : ascii) (a : string) :
  absent c a = true -> split c a = [a].
Proof.
  induction a as [|x a IH]; [reflexivity|]. cbn [absent split].
  intros H. apply andb_true_iff in H as [Hx Ha].
  apply negb_true_iff in Hx. rewrite Hx, (IH Ha). reflexivity.
Qed.

Lemma split_at_sep (c : ascii) (a s : string) :
  absent c a = true -> split c (a ++ String c s) = a :: split c s.
Proof.
  induction a as [|x a IH]; intros Ha.
  - change ("" ++ String c s) with (String c s).
    cbn [split]. rewrite Ascii.eqb_refl. reflexivity.
  - cbn [absent] in Ha. apply andb_true_iff in Ha as [Hx Ha].
    apply negb_true_iff in Hx.
    change (String x a ++ String c s) with (String x (a ++ String c s)).
    cbn [split]. rewrite Hx, (IH Ha). reflexivity.
Qed.

Lemma absent_app (c : ascii) (a b : string) :
  absent c (a ++ b) = absent c a && absent c b.
Proof.
  induction a as [|x a IH]; [reflexivity|].
  change (String x a ++ b) with (String x (a ++ b)).
  cbn [absent]. rewrite IH, andb_assoc. reflexivity.
Qed.

Lemma cut_pair (c : ascii) (k v : string) :
  absent c k = true -> cut c (k ++ String c v) = (k, v).
Proof.
  induction k as [|x k IH]; intros Hk.
  - change ("" ++ String c v) with (String c v).
    cbn [cut]. rewrite Ascii.eqb_refl. reflexivity.
  - cbn [absent] in Hk. apply andb_true_iff in Hk as [Hx Hk].
    apply negb_true_iff in Hx.
    change (String x k ++ String c v) with (String x (k ++ String c v)).
    cbn [cut]. rewrite Hx, (IH Hk). reflexivity.
Qed.

Lemma split_join (c : ascii) (l : list string) :
  l <> [] -> Forall (fun a => absent c a = true) l ->
  split c (join (String c "") l) = l.
Proof.
  unfold join. induction l as [|a l IH]; [congruence|]. intros _ Hall.
  inversion Hall as [|? ? Ha Hall']; subst.
  destruct l as [|b l]; [apply split_absent, Ha|].
  change (String.concat (String c "") (a :: b :: l))
    with (a ++ String c (String.concat (String c "") (b :: l))).
  rewrite (split_at_sep _ _ _ Ha), IH; [reflexivity|discriminate|exact Hall'].
Qed.

Lemma digits_no_amp (s : string) : all_digits s = true -> absent "&" s = true.
Proof.
  induction s as [|c s IH]; [reflexivity|]. cbn [all_digits absent].
  intros H. apply andb_true_iff in H as [Hc Hs]. rewrite (IH Hs), andb_true_r.
  revert Hc. by_bits c.
Qed.

Lemma int_no_amp (n : Z) : absent "&" (str_of_int n) = true.
Proof.
  unfold str_of_int.
  assert (H : forall d, absent "&" (NilZero.string_of_uint d) = true).
  { intros d. destruct d; try reflexivity;
      apply digits_no_amp, (all_digits_of_uint). }
  destruct (Z.to_int n) as [d|d]; cbn [NilZero.string_of_int]; [apply H|].
  cbn [absent]. rewrite H. reflexivity.
Qed.

(** An entry whose value is [None] leaves no trace in the query string. *)
Lemma query_params_omits_none (before after : list (string * filter_value))
    (k : string) :
  query_params (before ++ (k, FNone) :: after) = query_params (before ++ after).
Proof.
  unfold query_params. rewrite !List.filter_app. reflexivity.
Qed.

(** On plain entries the parser gives back what was serialized. *)
Lemma parse_query_params (filters : list (string * filter_value)) :
  Forall (fun kv => plain_entry kv = true) filters ->
  parse_query (query_params filters) = rendered filters.
Proof.
  intros Hall. unfold parse_query, query_params, rendered.
  set (kept := List.filter (fun kv => is_not_None kv.2) filters).
  assert (Hkept : Forall (fun kv => absent "&" kv.1 = true /\
                                    absent "=" kv.1 = true /\
                                    absent "&" (format_value kv.2) = true) kept).
  { subst kept. apply List.Forall_forall. intros [key v] Hin.
    apply filter_In in Hin as [Hin Hnn].
    rewrite List.Forall_forall in Hall. specialize (Hall _ Hin).
    unfold plain_entry in Hall. cbn [fst snd] in *.
    destruct v as [|t|n]; [discriminate| |].
    - apply andb_true_iff in Hall as [Hall Hv].
      apply andb_true_iff in Hall as [Hk1 Hk2]. auto.
    - apply andb_true_iff in Hall as [Hk1 Hk2].
      repeat split; auto. apply int_no_amp. }
  clearbody kept. destruct kept as [|kv kept]; [reflexivity|].
  set (pieces := map (fun kv => kv.1 ++ "=" ++ format_value kv.2) (kv :: kept)).
  assert (Hne : (join "&" pieces =? "")%string = false).
  { apply String.eqb_neq. subst pieces. unfold join. cbn [map].
    destruct kv as [[|x key] v]; destruct kept; cbn; discriminate. }
  rewrite Hne.
  rewrite (split_join "&" pieces).
  - subst pieces. rewrite map_map. apply map_ext_in.
    intros [key v] Hin. rewrite List.Forall_forall in Hkept.
    destruct (Hkept _ Hin) as (_ & Hk & _). cbn [fst snd] in *.
    apply (cut_pair "=" key (format_value v) Hk).
  - subst pieces. discriminate.
  - subst pieces. apply List.Forall_forall. intros piece Hin.
    apply in_map_iff in Hin as ([key v] & <- & Hin).
    rewrite List.Forall_forall in Hkept.
    destruct (Hkept _ Hin) as (Hk & _ & Hv). cbn [fst snd] in *.
    rewrite absent_app, Hk. cbn [andb].
    change ("=" ++ format_value v) with (String "=" (format_value v)).
    cbn [absent]. rewrite Hv. reflexivity.
Qed.

(** C8, as stated, fails: nothing is percent-encoded, so the mapping
    [{name: "a&b=c"}] and the mapping [{name: "a", b: "c"}] have the same
    query string; the string parses back to the second, and no parser at all
    can give back every mapping. *)
Lemma query_string_ambiguous :
  let one := [("name", FStr "a&b=c")] in
  let two := [("name", FStr "a"); ("b", FStr "c")] in
  query_params one = query_params two /\
  rendered one <> rendered two /\
  parse_query (query_params one) <> rendered one /\
  ~ (exists parse : string -> list (string * string),
       forall filters, parse (query_params filters) = rendered filters).
Proof.
  cbn zeta. split; [reflexivity|]. split; [discriminate|].
  split; [vm_compute; discriminate|].
  intros [parse Hparse].
  pose proof (Hparse [("name", FStr "a&b=c")]) as H1.
  pose proof (Hparse [("name", FStr "a"); ("b", FStr "c")]) as H2.
  change (query_params [("name", FStr "a"); ("b", FStr "c")])
    with (query_params [("name", FStr "a&b=c")]) in H2.
  rewrite H1 in H2. discriminate.
Qed.

(** C8, amended: serialization leaves out the entries whose value is
    [None]; when no key of a remaining entry contains ["&"] or ["="] and no
    string value contains ["&"], parsing the query string gives back the
    remaining entries in order, values as text.  The filters
    [{name: "Rick", page: 2}] give ["character/?name=Rick&page=2"], whose
    query parses back to name [Rick] and page [2]. *)
Theorem query_round_trip (filters before after : list (string * filter_value))
    (k : string) :
  Forall (fun kv => plain_entry kv = true) filters ->
  parse_query (query_params filters) = rendered filters /\
  query_params (before ++ (k, FNone) :: after) = query_params (before ++ after) /\
  rendered (before ++ (k, FNone) :: after) = rendered (before ++ after) /\
  filtered_endpoint "character" (Some [("name", FStr "Rick"); ("page", FInt 2)])
    = "character/?name=Rick&page=2" /\
  parse_query (query_params [("name", FStr "Rick"); ("page", FInt 2)])
    = [("name", "Rick"); ("page", "2")].
Proof.
  intros Hall. split; [apply parse_query_params, Hall|].
  split; [apply query_params_omits_none|].
  split; [unfold rendered; rewrite !List.filter_app; reflexivity|].
  split; reflexivity.
Qed.

Lemma query_round_trip_witness :
  parse_query
    (query_params [("name", FStr "Rick"); ("status", FNone); ("page", FInt 2)])
  = [("name", "Rick"); ("page", "2")].
Proof.
  destruct (query_round_trip
              [("name", FStr "Rick"); ("status", FNone); ("page", FInt 2)]
              [] [] "status") as (H & _).
  - repeat constructor.
  - exact H.
Defined.

End ClientFacts.

(** * Further properties of the rate limiter *)

Module RateLimiterExtras.
Import Clock RateLimiter Traces RateLimiterFacts.

Lemma prune_app (now : Q) (l1 l2 : list Q) :
  prune now (l1 ++ l2) = prune now l1 ++ prune now l2.
Proof. apply List.filter_app. Qed.

Lemma prune_length (now : Q) (l : list Q) :
  (length (prune now l) <= length l)%nat.
Proof. apply List.filter_length_le. Qed.

(** A sequence whose timestamps are all more than 300 seconds older than
    [c] is pruned away at every reading from [c] on. *)
Lemma prune_idle (c now : Q) (l : list Q) :
  idle c l = true -> (c <= now)%Q -> prune now l = [].
Proof.
  rewrite idle_spec. intros Hidle Hle. unfold prune.
  induction l as [|ts l IH]; [reflexivity|]. cbn [List.filter].
  assert (H : Qltb (now - ts) 60 = false).
  { apply Qltb_ge. specialize (Hidle ts (or_introl eq_refl)). lra. }
  rewrite H. apply IH. intros x Hx. apply Hidle. right; exact Hx.
Qed.

(** What [_cleanup] does to the sequence of one key. *)
Lemma cleanup_stored (c : Q) (self : SimpleRateLimiter) (k : string) :
  stored (_cleanup c self) k = stored self k \/
  (requests (_cleanup c self) !! k = None /\ idle c (stored self k) = true).
Proof.
  unfold stored. rewrite cleanup_lookup.
  destruct (requests self !! k) as [l|]; cbn [from_option id].
  - destruct (idle c l) eqn:E; [right; auto|left; reflexivity].
  - right. split; reflexivity.
Qed.

(** After a call, every key has the sequence the call recorded for it (its
    own for the other keys), or none because [_cleanup] found it idle. *)
Lemma stored_after (now c : Q) (ip k : string) (self : SimpleRateLimiter) :
  let before := if String.eqb k ip then recorded now ip self else stored self k in
  stored (is_rate_limited now c ip self).2 k = before \/
  (requests (is_rate_limited now c ip self).2 !! k = None /\
   idle c before = true /\
   (is_rate_limited now c ip self).1 = false /\ (fmod now 300 < 1)%Q).
Proof.
  cbn zeta. rewrite is_rate_limited_eq. cbn zeta. unfold recorded.
  fold (stored self ip).
  assert (Hins : forall l,
            stored (mkLimiter (requests_per_minute self)
                      (<[ip := l]> (requests self))) k
            = if String.eqb k ip then l else stored self k).
  { intros l. unfold stored. cbn [requests].
    destruct (String.eqb_spec k ip) as [->|Hne].
    - rewrite lookup_insert_eq. reflexivity.
    - rewrite lookup_insert_ne by congruence. reflexivity. }
  destruct (_ <=? _)%Z; cbn [fst snd].
  - left. rewrite Hins. destruct (String.eqb k ip); reflexivity.
  - destruct (Qltb (fmod now 300) 1) eqn:Hs.
    + destruct (cleanup_stored c
                  (mkLimiter (requests_per_minute self)
                     (<[ip := prune now (stored self ip) ++ [now]]>
                        (requests self))) k) as [E|[E1 E2]].
      * left. rewrite E, Hins. destruct (String.eqb k ip); reflexivity.
      * right. rewrite Hins in E2. apply Qltb_lt in Hs.
        destruct (String.eqb k ip); auto.
    + left. rewrite Hins. destruct (String.eqb k ip); reflexivity.
Qed.

Lemma is_rate_limited_fst (now c : Q) (ip : string) (self : SimpleRateLimiter) :
  (is_rate_limited now c ip self).1
  = (requests_per_minute self <=? Z.of_nat (length (prune now (stored self ip))))%Z.
Proof.
  rewrite is_rate_limited_eq. cbn zeta. fold (stored self ip).
  destruct (_ <=? _)%Z; reflexivity.
Qed.

Lemma recorded_length (now : Q) (ip : string) (self : SimpleRateLimiter) :
  (length (stored self ip) <= Z.to_nat (requests_per_minute self))%nat ->
  (length (recorded now ip self) <= Z.to_nat (requests_per_minute self))%nat.
Proof.
  intros Hb. unfold recorded. pose proof (prune_length now (stored self ip)).
  destruct (Z.leb_spec (requests_per_minute self)
              (Z.of_nat (length (prune now (stored self ip))))).
  - lia.
  - rewrite length_app. cbn [length]. lia.
Qed.

Lemma stored_None (self : SimpleRateLimiter) (k : string) :
  requests self !! k = None -> stored self k = [].
Proof. unfold stored. intros ->. reflexivity. Qed.

(** One call keeps the bound on the sequence of every key. *)
Lemma step_bound (now c : Q) (ip k : string) (self : SimpleRateLimiter) :
  (length (stored self k) <= Z.to_nat (requests_per_minute self))%nat ->
  (length (stored (is_rate_limited now c ip self).2 k)
   <= Z.to_nat (requests_per_minute self))%nat.
Proof.
  intros Hb. destruct (stored_after now c ip k self) as [E|(E & _)].
  - rewrite E. destruct (String.eqb_spec k ip) as [->|_]; [|exact Hb].
    apply recorded_length, Hb.
  - rewrite (stored_None _ _ E). cbn. lia.
Qed.

Lemma run_bound (trace : list (Q * Q * string)) :
  forall (self : SimpleRateLimiter) (k : string),
    (length (stored self k) <= Z.to_nat (requests_per_minute self))%nat ->
    (length (stored (run trace self) k)
     <= Z.to_nat (requests_per_minute self))%nat /\
    requests_per_minute (run trace self) = requests_per_minute self.
Proof.
  induction trace as [|[[t c] ip] trace IH]; intros self k Hb; [auto|].
  cbn [run]. pose proof (limit_preserved t c ip self) as Hl.
  destruct (IH (is_rate_limited t c ip self).2 k) as [H1 H2].
  - rewrite Hl. apply step_bound, Hb.
  - rewrite <- Hl. split; [exact H1|exact H2].
Qed.

(** One call keeps the stored sequence of a key and the history of its
    admitted requests equal after pruning at any later reading. *)
Lemma window_step (now c : Q) (ip k : string) (self : SimpleRateLimiter)
    (hist : list Q) (last : Q) :
  (last <= now)%Q -> (now <= c)%Q ->
  (forall t', (last <= t')%Q -> prune t' (stored self ip) = prune t' hist) ->
  forall t', (c <= t')%Q ->
    prune t' (stored (is_rate_limited now c k self).2 ip)
    = prune t' (if String.eqb k ip && negb (is_rate_limited now c k self).1
                then hist ++ [now] else hist).
Proof.
  intros Hlast Hc Hinv t' Ht'.
  assert (Hbefore :
    prune t' (stored (is_rate_limited now c k self).2 ip)
    = prune t' (if String.eqb ip k then recorded now k self else stored self ip)).
  { destruct (stored_after now c k ip self) as [->|(E & Hidle & _)];
      [reflexivity|].
    rewrite (stored_None _ _ E). symmetry. apply (prune_idle c); assumption. }
  rewrite Hbefore, is_rate_limited_fst. rewrite (String.eqb_sym ip k).
  destruct (String.eqb_spec k ip) as [->|Hne]; cbn [andb].
  - unfold recorded.
    destruct (_ <=? _)%Z; cbn [negb].
    + rewrite prune_prune by lra. apply Hinv. lra.
    + rewrite !prune_app, prune_prune by lra. rewrite Hinv by lra. reflexivity.
  - apply Hinv. lra.
Qed.

Lemma window_run (ip : string) (trace : list (Q * Q * string)) :
  forall (self : SimpleRateLimiter) (hist : list Q) (last : Q),
    monotone last trace ->
    (forall t', (last <= t')%Q -> prune t' (stored self ip) = prune t' hist) ->
    forall t', (last_reading last trace <= t')%Q ->
      prune t' (stored (run trace self) ip)
      = prune t' (hist ++ admitted_times ip trace self).
Proof.
  induction trace as [|[[t c] k] trace IH]; intros self hist last Hmono Hinv t' Ht'.
  - cbn. rewrite app_nil_r. apply Hinv. exact Ht'.
  - cbn [monotone] in Hmono. destruct Hmono as (H1 & H2 & Hmono).
    cbn [run admitted_times last_reading] in *.
    pose proof (window_step t c ip k self hist last H1 H2 Hinv) as Hstep.
    rewrite (IH _ _ c Hmono Hstep t' Ht').
    destruct (String.eqb k ip && negb (is_rate_limited t c k self).1);
      [rewrite <- app_assoc|]; reflexivity.
Qed.

(** X1: the sliding-window guarantee.  Along any sequence of calls, for any
    keys, during which the clock never goes backwards, at every reading
    from the last one on, the requests of a key that were admitted less
    than 60 seconds earlier, together with the timestamps the key had at
    the start that are still that recent, number at most the limit. *)
Theorem window_never_exceeds_limit (self : SimpleRateLimiter) (ip : string)
    (trace : list (Q * Q * string)) (start now : Q) :
  (length (stored self ip) <= Z.to_nat (requests_per_minute self))%nat ->
  monotone start trace ->
  (last_reading start trace <= now)%Q ->
  (length (prune now (stored self ip ++ admitted_times ip trace self))
   <= Z.to_nat (requests_per_minute self))%nat.
Proof.
  intros Hb Hmono Hnow.
  rewrite <- (window_run ip trace self (stored self ip) start Hmono
                (fun _ _ => eq_refl) now Hnow).
  pose proof (prune_length now (stored (run trace self) ip)).
  destruct (run_bound trace self ip Hb) as [Hr _]. lia.
Qed.

Lemma window_never_exceeds_limit_witness :
  let ip := "203.0.113.7"%string in
  let trace := [(0, 0, ip); (10, 10, ip); (20, 20, "198.51.100.2"%string);
                (30, 30, ip); (40, 40, ip); (75, 75, ip)]%Q in
  answers trace (init 2) = [false; false; false; true; true; false] /\
  admitted_times ip trace (init 2) = [0; 10; 75]%Q /\
  (length (prune 75 (stored (init 2) ip ++ admitted_times ip trace (init 2)))
   <= Z.to_nat 2)%nat.
Proof.
  cbn zeta. split; [vm_compute; reflexivity|]. split; [vm_compute; reflexivity|].
  apply (window_never_exceeds_limit (init 2) "203.0.113.7" _ 0 75).
  - vm_compute. lia.
  - cbn [monotone]. repeat split; lra.
  - cbn [last_reading]. lra.
Defined.

(** X2: no key ever holds more timestamps than the limit (none when the
    limit is not positive): a bound that holds for a key at the start
    holds after any sequence of calls, whatever the clock readings. *)
Theorem stored_sequence_bounded (self : SimpleRateLimiter) (k : string)
    (trace : list (Q * Q * string)) :
  (length (stored self k) <= Z.to_nat (requests_per_minute self))%nat ->
  (length (stored (run trace self) k)
   <= Z.to_nat (requests_per_minute self))%nat.
Proof. intros Hb. apply (run_bound trace self k Hb). Qed.

Lemma stored_sequence_bounded_witness :
  (length (stored (run [(5, 5, "203.0.113.7"%string); (5, 5, "203.0.113.7"%string);
                        (4, 4, "203.0.113.7"%string); (6, 6, "203.0.113.7"%string)]%Q
                     (init 3)) "203.0.113.7")
   <= Z.to_nat 3)%nat.
Proof.
  apply (stored_sequence_bounded (init 3) "203.0.113.7").
  vm_compute. lia.
Defined.

(** X3: a call for one key never alters the sequence of another key: the
    other key keeps exactly what it had, or is deleted, which happens only
    in an admitted call sampled for cleanup and only when all its
    timestamps are more than 300 seconds older than the reading [_cleanup]
    makes. *)
Theorem other_keys_untouched (now c : Q) (ip k : string)
    (self : SimpleRateLimiter) :
  k <> ip ->
  requests (is_rate_limited now c ip self).2 !! k = requests self !! k \/
  (requests (is_rate_limited now c ip self).2 !! k = None /\
   (is_rate_limited now c ip self).1 = false /\
   (fmod now 300 < 1)%Q /\
   idle c (stored self k) = true).
Proof.
  intros Hne. rewrite is_rate_limited_eq. cbn zeta.
  destruct (_ <=? _)%Z; cbn [fst snd requests].
  - left. apply lookup_insert_ne. congruence.
  - destruct (Qltb (fmod now 300) 1) eqn:Hs; cbn [requests].
    + rewrite cleanup_lookup. cbn [requests].
      rewrite lookup_insert_ne by congruence. unfold stored.
      destruct (requests self !! k) as [l|] eqn:E; [|left; reflexivity].
      cbn [from_option id]. destruct (idle c l) eqn:Hidle; [|left; reflexivity].
      right. apply Qltb_lt in Hs. auto.
    + left. apply lookup_insert_ne. congruence.
Qed.

Lemma other_keys_untouched_witness :
  let self := mkLimiter default_limit
                {[ "198.51.100.1"%string := [100%Q]; "198.51.100.3"%string := [590%Q] ]} in
  requests (is_rate_limited 600 600 "198.51.100.2" self).2 !! "198.51.100.3"%string
  = Some [590%Q] /\
  requests (is_rate_limited 600 600 "198.51.100.2" self).2 !! "198.51.100.1"%string
  = None.
Proof.
  cbn zeta. split.
  - destruct (other_keys_untouched 600 600 "198.51.100.2" "198.51.100.3"
                (mkLimiter default_limit
                   {[ "198.51.100.1"%string := [100%Q];
                      "198.51.100.3"%string := [590%Q] ]}))
      as [H|(_ & _ & _ & H)]; [discriminate| |vm_compute in H; discriminate].
    rewrite H. vm_compute. reflexivity.
  - vm_compute. reflexivity.
Defined.

Lemma limiter_eq (a b : SimpleRateLimiter) :
  requests_per_minute a = requests_per_minute b -> requests a = requests b ->
  a = b.
Proof. destruct a, b. cbn. congruence. Qed.

(** A sequence is not idle exactly when one of its timestamps is at most
    300 seconds older than the reading. *)
Lemma active_spec (c : Q) (l : list Q) :
  idle c l = false <-> exists ts, In ts l /\ (c - ts <= 300)%Q.
Proof.
  split.
  - destruct l as [|t l]; [discriminate|]. cbn [idle]. intros H.
    apply Qltb_ge in H. exists (py_max t l). split; [apply py_max_In|exact H].
  - intros (ts & Hin & Hle). destruct (idle c l) eqn:E; [|reflexivity].
    rewrite idle_spec in E. specialize (E ts Hin). lra.
Qed.

(** X4: what [_cleanup] leaves behind.  A key survives exactly when one of
    its timestamps is at most 300 seconds older than the reading, and it
    keeps its sequence unchanged; so no empty sequence survives.  Running
    [_cleanup] again at the same reading changes nothing, and the limit is
    never touched. *)
Theorem cleanup_keeps_active_keys (c : Q) (self : SimpleRateLimiter) :
  (forall k l,
     requests (_cleanup c self) !! k = Some l <->
     requests self !! k = Some l /\ exists ts, In ts l /\ (c - ts <= 300)%Q) /\
  (forall k, requests (_cleanup c self) !! k <> Some []) /\
  _cleanup c (_cleanup c self) = _cleanup c self /\
  requests_per_minute (_cleanup c self) = requests_per_minute self.
Proof.
  assert (Hchar : forall k l,
     requests (_cleanup c self) !! k = Some l <->
     requests self !! k = Some l /\ exists ts, In ts l /\ (c - ts <= 300)%Q).
  { intros k l. rewrite cleanup_lookup, <- active_spec.
    destruct (requests self !! k) as [l'|]; [|split; [discriminate|intros [[=] _]]].
    destruct (idle c l') eqn:E.
    - split; [discriminate|]. intros [[= ->] H]. congruence.
    - split; [intros [= ->]; auto|]. intros [H _]. exact H. }
  split; [exact Hchar|]. split; [|split; [|reflexivity]].
  - intros k H. apply Hchar in H as (_ & ts & [] & _).
  - apply limiter_eq; [reflexivity|].
    unfold _cleanup at 1. cbn [requests].
    apply map_eq. intros k. rewrite map_lookup_filter.
    destruct (requests (_cleanup c self) !! k) as [l|] eqn:E; [|reflexivity].
    cbn. apply Hchar in E as [_ Hact]. apply active_spec in Hact.
    rewrite option_guard_True by exact Hact. reflexivity.
Qed.

Lemma cleanup_keeps_active_keys_witness :
  requests (_cleanup 1000
              (mkLimiter default_limit
                 {[ "198.51.100.1"%string := [100; 700]%Q;
                    "198.51.100.3"%string := [100; 650]%Q ]}))
    !! "198.51.100.1"%string
  = Some [100; 700]%Q.
Proof.
  destruct (cleanup_keeps_active_keys 1000
              (mkLimiter default_limit
                 {[ "198.51.100.1"%string := [100; 700]%Q;
                    "198.51.100.3"%string := [100; 650]%Q ]})) as (H & _).
  apply H. split; [vm_compute; reflexivity|].
  exists 700%Q. split; [right; left; reflexivity|lra].
Defined.

(** X5: with a limit of zero or less every call is rejected, whatever the
    state and the clock; [_cleanup] then never runs, so no key is ever
    deleted: the keys after a run are those of the start and those that
    called. *)
Theorem nonpositive_limit_rejects_all (trace : list (Q * Q * string)) :
  forall self : SimpleRateLimiter,
    (requests_per_minute self <= 0)%Z ->
    answers trace self = repeat true (length trace) /\
    (forall k, is_Some (requests (run trace self) !! k) <->
               is_Some (requests self !! k) \/ In k (map snd trace)).
Proof.
  induction trace as [|[[t c] ip] trace IH]; intros self Hl.
  - cbn. split; [reflexivity|]. intros k. tauto.
  - cbn [answers run length repeat map snd].
    pose proof (is_rate_limited_eq t c ip self) as E. cbn zeta in E.
    replace (requests_per_minute self <=? _)%Z with true in E
      by (symmetry; apply Z.leb_le; lia).
    rewrite E. cbn [fst snd].
    destruct (IH (mkLimiter (requests_per_minute self)
                    (<[ip := prune t (default [] (requests self !! ip))]>
                       (requests self))) Hl) as [IH1 IH2].
    rewrite IH1. split; [reflexivity|].
    intros k. rewrite IH2. cbn [requests In].
    rewrite lookup_insert_is_Some.
    destruct (decide (ip = k)); tauto.
Qed.

Lemma nonpositive_limit_rejects_all_witness :
  answers [(0, 0, "203.0.113.7"%string); (300, 300, "198.51.100.2"%string);
           (900, 900, "203.0.113.7"%string)]%Q (init 0)
  = [true; true; true].
Proof.
  destruct (nonpositive_limit_rejects_all
              [(0, 0, "203.0.113.7"%string); (300, 300, "198.51.100.2"%string);
               (900, 900, "203.0.113.7"%string)]%Q (init 0)) as [H _].
  - cbn. lia.
  - exact H.
Defined.

Lemma run_limit (trace : list (Q * Q * string)) :
  forall self : SimpleRateLimiter,
    requests_per_minute (run trace self) = requests_per_minute self.
Proof.
  induction trace as [|[[t c] ip] trace IH]; intros self; [reflexivity|].
  cbn [run]. rewrite IH. apply limit_preserved.
Qed.

(** While the clock never goes backwards no stored timestamp lies after
    the last reading. *)
Lemma run_upper (ip : string) (trace : list (Q * Q * string)) :
  forall (self : SimpleRateLimiter) (last : Q),
    monotone last trace ->
    List.Forall (fun ts => (ts <= last)%Q) (stored self ip) ->
    List.Forall (fun ts => (ts <= last_reading last trace)%Q)
      (stored (run trace self) ip).
Proof.
  induction trace as [|[[t c] k] trace IH]; intros self last Hmono Hup;
    [exact Hup|].
  cbn [monotone] in Hmono. destruct Hmono as (H1 & H2 & Hmono).
  cbn [run last_reading]. apply IH; [exact Hmono|].
  assert (Hold : List.Forall (fun ts => (ts <= c)%Q) (stored self ip)).
  { eapply List.Forall_impl; [|exact Hup]. cbn. intros ts Hts. lra. }
  destruct (stored_after t c k ip self) as [->|(E & _)].
  - destruct (String.eqb_spec ip k) as [->|_]; [|exact Hold].
    unfold recorded.
    assert (Hw : List.Forall (fun ts => (ts <= c)%Q) (prune t (stored self k))).
    { apply List.Forall_forall. intros ts Hin. apply prune_In in Hin as [Hin _].
      rewrite List.Forall_forall in Hold. apply Hold, Hin. }
    destruct (_ <=? _)%Z; [exact Hw|].
    apply List.Forall_app. split; [exact Hw|]. constructor; [exact H2|constructor].
  - rewrite (stored_None _ _ E). constructor.
Qed.

Lemma waiting_admits (self : SimpleRateLimiter) (ip : string)
    (trace : list (Q * Q * string)) (start now c : Q) :
  (1 <= requests_per_minute self)%Z ->
  monotone start trace ->
  List.Forall (fun ts => (ts <= start)%Q) (stored self ip) ->
  (last_reading start trace + 60 <= now)%Q ->
  (is_rate_limited now c ip (run trace self)).1 = false.
Proof.
  intros Hl Hmono Hup Hnow.
  pose proof (run_upper ip trace self start Hmono Hup) as Hlast.
  rewrite is_rate_limited_fst.
  assert (E : prune now (stored (run trace self) ip) = []).
  { unfold prune. induction Hlast as [|ts l Hts _ IH]; [reflexivity|].
    cbn [List.filter].
    assert (H : Qltb (now - ts) 60 = false) by (apply Qltb_ge; lra).
    rewrite H. exact IH. }
  rewrite E, run_limit. apply Z.leb_gt. cbn. lia.
Qed.

(** X6: waiting out the window always works.  After any calls during which
    the clock never went backwards, admitted or rejected, a call of a key
    made at least 60 seconds after the last reading is admitted, provided
    the limit is at least 1. *)
Theorem admitted_after_waiting (self : SimpleRateLimiter) (ip : string)
    (trace : list (Q * Q * string)) (start now c : Q) :
  (1 <= requests_per_minute self)%Z ->
  monotone start trace ->
  List.Forall (fun ts => (ts <= start)%Q) (stored self ip) ->
  (last_reading start trace + 60 <= now)%Q ->
  (is_rate_limited now c ip (run trace self)).1 = false.
Proof.
  apply waiting_admits.
Qed.

Lemma admitted_after_waiting_witness :
  let ip := "203.0.113.7"%string in
  let trace := [(0, 0, ip); (1, 1, ip); (2, 2, ip); (30, 30, ip)]%Q in
  answers trace (init 2) = [false; false; true; true] /\
  (is_rate_limited 90 90 ip (run trace (init 2))).1 = false.
Proof.
  cbn zeta. split; [vm_compute; reflexivity|].
  apply (admitted_after_waiting (init 2) "203.0.113.7" _ 0 90 90).
  - cbn. lia.
  - cbn [monotone]. repeat split; lra.
  - vm_compute. constructor.
  - cbn [last_reading]. lra.
Defined.

(** ** Order of the stored timestamps *)

Lemma Forall_prune (P : Q -> Prop) (now : Q) (l : list Q) :
  List.Forall P l -> List.Forall P (prune now l).
Proof.
  intros H. apply List.Forall_forall. intros x Hx.
  apply prune_In in Hx as [Hx _]. rewrite List.Forall_forall in H. auto.
Qed.

Lemma ascending_prune (now : Q) (l : list Q) :
  ascending l -> ascending (prune now l).
Proof.
  induction l as [|x l IH]; [trivial|]. intros [Hx Hl].
  unfold prune. cbn [List.filter]. fold (prune now l).
  destruct (Qltb (now - x) 60); [|exact (IH Hl)].
  split; [apply Forall_prune, Hx|exact (IH Hl)].
Qed.

Lemma ascending_snoc (l : list Q) (x : Q) :
  ascending l -> List.Forall (fun y => (y <= x)%Q) l -> ascending (l ++ [x]).
Proof.
  induction l as [|y l IH]; intros Hl Hup.
  - cbn. auto.
  - destruct Hl as [Hy Hl]. inversion Hup as [|? ? Hyx Hup']; subst.
    cbn [app ascending]. split; [|exact (IH Hl Hup')].
    apply List.Forall_app. split; [exact Hy|]. constructor; [exact Hyx|constructor].
Qed.

Lemma py_max_compat (l : list Q) :
  forall x x', (x == x')%Q -> (py_max x l == py_max x' l)%Q.
Proof.
  induction l as [|y l IH]; intros x x' E; [exact E|]. cbn [py_max].
  apply IH. destruct (Qltb x y) eqn:H1, (Qltb x' y) eqn:H2;
    try reflexivity; try exact E.
  - apply Qltb_lt in H1. apply Qltb_ge in H2. rewrite E in H1. lra.
  - apply Qltb_ge in H1. apply Qltb_lt in H2. rewrite E in H1. lra.
Qed.

Lemma last_cons (l : list Q) : forall y x, List.last (y :: l) x = List.last l y.
Proof.
  induction l as [|z l IH]; intros y x; [reflexivity|].
  change (List.last (y :: z :: l) x) with (List.last (z :: l) x).
  rewrite !IH. reflexivity.
Qed.

(** In an ascending sequence the maximum is the last timestamp. *)
Lemma py_max_last (l : list Q) :
  forall x, ascending (x :: l) -> (py_max x l == List.last l x)%Q.
Proof.
  induction l as [|y l IH]; intros x Hasc; [reflexivity|].
  destruct Hasc as [Hx Hl]. inversion Hx as [|? ? Hxy Hx']; subst.
  cbn [py_max]. rewrite last_cons, <- (IH y Hl).
  apply py_max_compat. destruct (Qltb x y) eqn:H; [reflexivity|].
  apply Qltb_ge in H. lra.
Qed.

Lemma run_ascending (ip : string) (trace : list (Q * Q * string)) :
  forall (self : SimpleRateLimiter) (last : Q),
    monotone last trace ->
    ascending (stored self ip) ->
    List.Forall (fun ts => (ts <= last)%Q) (stored self ip) ->
    ascending (stored (run trace self) ip).
Proof.
  induction trace as [|[[t c] k] trace IH]; intros self last Hmono Hasc Hup;
    [exact Hasc|].
  pose proof (run_upper ip [(t, c, k)] self last) as Hup'.
  cbn [monotone] in Hmono, Hup'. destruct Hmono as (H1 & H2 & Hmono).
  cbn [run last_reading] in *. apply (IH _ c Hmono); [|apply Hup'; auto].
  destruct (stored_after t c k ip self) as [->|(E & _)].
  - destruct (String.eqb_spec ip k) as [->|_]; [|exact Hasc].
    unfold recorded. pose proof (ascending_prune t _ Hasc) as Hw.
    destruct (_ <=? _)%Z; [exact Hw|].
    apply ascending_snoc; [exact Hw|]. apply Forall_prune.
    eapply List.Forall_impl; [|exact Hup]. cbn. intros ts Hts. lra.
  - rewrite (stored_None _ _ E). exact I.
Qed.

(** X19: while the clock never goes backwards the timestamps of a key are
    stored in ascending order and none lies after the last reading; so the
    most recent one, which [_cleanup] looks for with [max], is the last of
    the sequence, and a key is idle exactly when that last timestamp is
    more than 300 seconds old. *)
Theorem stored_timestamps_ascend (self : SimpleRateLimiter) (ip : string)
    (trace : list (Q * Q * string)) (start : Q) :
  monotone start trace ->
  ascending (stored self ip) ->
  List.Forall (fun ts => (ts <= start)%Q) (stored self ip) ->
  let l := stored (run trace self) ip in
  ascending l /\
  List.Forall (fun ts => (ts <= last_reading start trace)%Q) l /\
  (forall c, l <> [] -> (idle c l = true <-> (300 < c - List.last l 0)%Q)).
Proof.
  intros Hmono Hasc Hup. cbn zeta.
  pose proof (run_ascending ip trace self start Hmono Hasc Hup) as Hsorted.
  split; [exact Hsorted|]. split; [apply run_upper; assumption|].
  intros c Hne. destruct (stored (run trace self) ip) as [|t ts]; [congruence|].
  cbn [idle]. rewrite Qltb_lt, last_cons, (py_max_last ts t Hsorted).
  reflexivity.
Qed.

Lemma stored_timestamps_ascend_witness :
  let ip := "203.0.113.7"%string in
  let trace := [(0, 0, ip); (10, 10, ip); (30, 31, ip); (65, 65, ip)]%Q in
  ascending (stored (run trace (init 5)) ip) /\
  stored (run trace (init 5)) ip = [10; 30; 65]%Q.
Proof.
  cbn zeta. split; [|vm_compute; reflexivity].
  apply (stored_timestamps_ascend (init 5) "203.0.113.7" _ 0).
  - cbn [monotone]. repeat split; lra.
  - vm_compute. exact I.
  - vm_compute. constructor.
Defined.

End RateLimiterExtras.



(** * Further properties of the upstream client *)

Module ClientExtras.
Import Py Client ClientTerms PyFacts ClientFacts.
Local Open Scope string_scope.

Section Budget.
Variable self : RickAndMortyClient.
Variables url resource_type : string.
Variable resource_id : option Z.

Let loop := attempts self url resource_type resource_id.

Lemma spent_one_more (w w' : world) (o : outcome) (rest : list outcome)
    (seconds : Z) (k : nat) (more : list Z) :
  script w = o :: rest ->
  spent url (rested url w rest seconds) w' k more ->
  spent url w w' (S k) (seconds :: more).
Proof.
  intros Hs (H1 & H2 & H3). unfold rested in *. cbn [requested script sleeps] in *.
  repeat split.
  - rewrite H1, <- app_assoc. reflexivity.
  - rewrite H2, Hs. reflexivity.
  - rewrite H3, <- app_assoc. reflexivity.
Qed.

Lemma spent_none (w : world) : spent url w w 0 [].
Proof.
  unfold spent. cbn [repeat skipn]. rewrite !app_nil_r. auto.
Qed.

Lemma spent_last (w : world) (o : outcome) (rest : list outcome) :
  script w = o :: rest -> spent url w (answered url w rest) 1 [].
Proof.
  intros Hs. unfold answered. repeat split; cbn [requested script sleeps repeat].
  - rewrite Hs. reflexivity.
  - rewrite app_nil_r. reflexivity.
Qed.

(** Under the loop's counting ([attempt + iterations left = max_retries +
    1]) every attempt but the last is followed by exactly one sleep and the
    last by none. *)
Lemma loop_budget (n : nat) :
  forall (a : Z) (w w' : world) (r : res json),
    (a + Z.of_nat n = max_retries self + 1)%Z -> (1 <= n)%nat ->
    loop n a w = (r, w') ->
    exists k more,
      (k <= n)%nat /\ spent url w w' k more /\
      (r = Stuck -> length more = k) /\
      (r <> Stuck -> (1 <= k)%nat /\ length more = (k - 1)%nat) /\
      (script w <> [] -> (1 <= k)%nat).
Proof.
  induction n as [|n IH]; intros a w w' r Hinv Hn; [lia|].
  unfold loop. cbn [attempts]. unfold bind at 1, session_get.
  destruct (script w) as [|o rest] eqn:Hs.
  { intros [= <- <-]. exists 0%nat, []. split; [lia|].
    split; [apply spent_none|]. split; [reflexivity|]. split; congruence. }
  fold loop.
  assert (Hretry : forall seconds,
            a <> max_retries self ->
            loop n (a + 1)%Z (rested url w rest seconds) = (r, w') ->
            exists k more,
              (k <= S n)%nat /\ spent url w w' k more /\
              (r = Stuck -> length more = k) /\
              (r <> Stuck -> (1 <= k)%nat /\ length more = (k - 1)%nat) /\
              (o :: rest <> [] -> (1 <= k)%nat)).
  { intros seconds Ha E. apply IH in E; [|lia|lia].
    destruct E as (k & more & Hk & Hsp & Hst & Hok & _).
    exists (S k), (seconds :: more). split; [lia|].
    split; [eapply spent_one_more; eassumption|].
    split; [|split].
    - intros Hr. cbn [length]. rewrite (Hst Hr). reflexivity.
    - intros Hr. destruct (Hok Hr) as [H1 H2]. cbn [length]. lia.
    - intros _. lia. }
  assert (Hdone : forall r0,
            (r0, answered url w rest) = (r, w') -> r0 <> Stuck ->
            exists k more,
              (k <= S n)%nat /\ spent url w w' k more /\
              (r = Stuck -> length more = k) /\
              (r <> Stuck -> (1 <= k)%nat /\ length more = (k - 1)%nat) /\
              (o :: rest <> [] -> (1 <= k)%nat)).
  { intros r0 [= <- <-] Hr0. exists 1%nat, []. split; [lia|].
    split; [eapply spent_last; eassumption|].
    split; [congruence|]. split; intros _; cbn; lia. }
  assert (Hhandler : forall e,
            on_client_error self a (loop n (a + 1)%Z) e (answered url w rest)
              = (r, w') ->
            exists k more,
              (k <= S n)%nat /\ spent url w w' k more /\
              (r = Stuck -> length more = k) /\
              (r <> Stuck -> (1 <= k)%nat /\ length more = (k - 1)%nat) /\
              (o :: rest <> [] -> (1 <= k)%nat)).
  { intros e. unfold on_client_error.
    destruct (Z.ltb_spec a (max_retries self)).
    - unfold bind, sleep. cbn [answered script requested sleeps].
      apply Hretry. lia.
    - unfold raise. intros E. eapply Hdone; [exact E|discriminate]. }
  destruct o as [st h b|e]; [|apply Hhandler].
  destruct (Z.eqb_spec st 429).
  { unfold or_raise. destruct (retry_after_of h).
    - unfold bind at 1, ret. destruct (Z.eqb_spec a (max_retries self)).
      + unfold raise. intros E. eapply Hdone; [exact E|discriminate].
      + unfold bind, sleep. apply Hretry. assumption.
    - unfold bind, raise. intros E. eapply Hdone; [exact E|discriminate]. }
  destruct (Z.eqb_spec st 404).
  { unfold raise. intros E. eapply Hdone; [exact E|discriminate]. }
  destruct ((500 <=? st)%Z && (st <? 600)%Z).
  { destruct (Z.eqb_spec a (max_retries self)).
    - unfold raise. intros E. eapply Hdone; [exact E|discriminate].
    - unfold bind, sleep. apply Hretry. assumption. }
  destruct (Z.eqb_spec st 200) as [->|]; cbn [negb]; unfold with_json.
  - destruct b; [|apply Hhandler|].
    + unfold ret. intros E. eapply Hdone; [exact E|discriminate].
    + unfold raise. intros E. eapply Hdone; [exact E|discriminate].
  - destruct b; [|apply Hhandler|].
    + unfold bind, or_raise.
      destruct (py_get _ _ _); unfold ret, raise;
        intros E; (eapply Hdone; [exact E|discriminate]).
    + unfold raise. intros E. eapply Hdone; [exact E|discriminate].
Qed.

End Budget.

Lemma make_request_spent (self : RickAndMortyClient) (endpoint : string)
    (w w' : world) (r : res json) :
  _make_request self endpoint w = (r, w') ->
  (exists k more,
     (k <= Z.to_nat (max_retries self))%nat /\
     spent (url_of endpoint) w w' k more /\
     (length more <= k)%nat /\
     (r <> Stuck -> length more = (k - 1)%nat) /\
     (session self = true -> (1 <= max_retries self)%Z -> script w <> [] ->
        (1 <= k)%nat)) /\
  (session self = false -> r = Raise RuntimeError /\ w' = w) /\
  (session self = true -> (max_retries self <= 0)%Z ->
     r = Ret JNull /\ w' = w).
Proof.
  destruct (session self) eqn:Hs.
  - destruct (make_request_loop self endpoint Hs) as [rid Hreq].
    rewrite Hreq. destruct (Z.to_nat (max_retries self)) as [|n] eqn:Hn.
    + intros [= <- <-]. split; [|split; [discriminate|auto]].
      exists 0%nat, []. split; [lia|].
      split; [apply spent_none|]. cbn. repeat split; auto. lia.
    + intros E. split; [|split; [discriminate|lia]].
      apply loop_budget in E; [|lia|lia].
      destruct E as (k & more & Hk & Hsp & Hst & Hok & Hfirst).
      exists k, more. split; [exact Hk|]. split; [exact Hsp|]. split; [|split].
      * destruct r as [j|e|]; [| |rewrite (Hst eq_refl); lia];
          (destruct Hok as [_ ->]; [discriminate|lia]).
      * intros Hr. apply (Hok Hr).
      * intros _ _. exact Hfirst.
  - unfold _make_request. rewrite Hs. intros [= <- <-].
    split; [|split; [auto|discriminate]].
    exists 0%nat, []. split; [lia|]. split; [apply spent_none|]. cbn.
    repeat split; auto. discriminate.
Qed.

(** X7: the budget of a logical request.  Whatever upstream answers,
    [_make_request] makes at most [max_retries] HTTP calls, all to the URL
    of its endpoint, consumes exactly the outcomes of those calls, and
    sleeps once after each call but the last: never after the call that
    ends the request.  With a session, a positive [max_retries] and an
    outcome to read it makes at least one call.  Without a session it
    raises RuntimeError, and with a session and [max_retries <= 0] it
    returns [None]: in both cases it makes no call and no sleep, the world
    is the one it started in. *)
Theorem request_budget (self : RickAndMortyClient) (endpoint : string)
    (w w' : world) (r : res json) :
  _make_request self endpoint w = (r, w') ->
  (exists k more,
     (k <= Z.to_nat (max_retries self))%nat /\
     spent (url_of endpoint) w w' k more /\
     (length more <= k)%nat /\
     (r <> Stuck -> length more = (k - 1)%nat) /\
     (session self = true -> (1 <= max_retries self)%Z -> script w <> [] ->
        (1 <= k)%nat)) /\
  (session self = false -> r = Raise RuntimeError /\ w' = w) /\
  (session self = true -> (max_retries self <= 0)%Z ->
     r = Ret JNull /\ w' = w).
Proof.
  apply make_request_spent.
Qed.

Lemma request_budget_witness :
  (exists k more,
     (k <= 3)%nat /\
     spent (url_of "location/3")
       (start [Failure Timeout; Response 429 (Some "7") NotJson;
               Response 502 None NotJson; Response 200 None (Json JNull)])
       (mkWorld [Response 200 None (Json JNull)]
          (repeat (url_of "location/3") 3) [2; 7]%Z) k more /\
     (length more <= k)%nat /\
     (@Raise json ServerError <> Stuck -> length more = (k - 1)%nat) /\
     (true = true -> (1 <= 3)%Z ->
        [Failure Timeout; Response 429 (Some "7") NotJson;
         Response 502 None NotJson; Response 200 None (Json JNull)] <> [] ->
        (1 <= k)%nat)) /\
  (forall r w',
     _make_request (mkClient false 3 10) "location/3"
       (start [Response 200 None (Json JNull)]) = (r, w') ->
     r = Raise RuntimeError /\ w' = start [Response 200 None (Json JNull)]).
Proof.
  split.
  - apply (request_budget default_client "location/3"
             (start [Failure Timeout; Response 429 (Some "7") NotJson;
                     Response 502 None NotJson; Response 200 None (Json JNull)])).
    vm_compute. reflexivity.
  - intros r w' E.
    apply (request_budget (mkClient false 3 10) "location/3" _ _ _ E).
    reflexivity.
Defined.

(** ** Transport failures *)

Lemma step_failure (self : RickAndMortyClient) (url rt : string)
    (rid : option Z) (n : nat) (a : Z) (w : world) (o : outcome)
    (rest : list outcome) (e : client_error) :
  script w = o :: rest -> transport_failure o = Some e ->
  attempts self url rt rid (S n) a w =
  if (a <? max_retries self)%Z
  then attempts self url rt rid n (a + 1)%Z (rested url w rest (2 ^ a)%Z)
  else (Raise (ClientError e), answered url w rest).
Proof.
  intros Hs Ho. cbn [attempts]. unfold bind at 1, session_get. rewrite Hs.
  destruct o as [st h b|e'].
  - cbn [transport_failure] in Ho. destruct b; try discriminate.
    destruct (st =? 429)%Z; [discriminate|].
    destruct (st =? 404)%Z; [discriminate|].
    destruct ((500 <=? st)%Z && (st <? 600)%Z); [discriminate|].
    cbn [orb] in Ho. injection Ho as <-.
    destruct (negb (st =? 200)%Z); unfold with_json, on_client_error;
      destruct (a <? max_retries self)%Z; reflexivity.
  - injection Ho as ->. unfold on_client_error.
    destruct (a <? max_retries self)%Z; reflexivity.
Qed.

Lemma run_failures (self : RickAndMortyClient) (url rt : string)
    (rid : option Z) (failures tail : list outcome) :
  forall (n : nat) (a : Z) (req : list string) (sl : list Z),
    Forall (fun o => is_Some (transport_failure o)) failures ->
    (a + Z.of_nat (length failures) <= max_retries self)%Z ->
    attempts self url rt rid (length failures + n) a
      (mkWorld (failures ++ tail) req sl) =
    attempts self url rt rid n (a + Z.of_nat (length failures))%Z
      (mkWorld tail (req ++ repeat url (length failures))
         (sl ++ backoffs a (length failures))).
Proof.
  induction failures as [|o failures IH]; intros n a req sl Hall Hroom.
  - cbn [length Nat.add repeat backoffs app]. rewrite !app_nil_r, Z.add_0_r.
    reflexivity.
  - inversion Hall as [|? ? [e Ho] Hall']; subst.
    cbn [length] in Hroom. cbn [length Nat.add app].
    rewrite (step_failure _ _ _ _ _ _ _ o (failures ++ tail) e)
      by (reflexivity || assumption).
    replace (a <? max_retries self)%Z with true
      by (symmetry; apply Z.ltb_lt; lia).
    unfold rested. cbn [script requested sleeps].
    rewrite IH by (assumption || lia).
    cbn [repeat backoffs]. rewrite <- !app_assoc. cbn [app].
    f_equal. lia.
Qed.

(** X8: transport failures are retried with the same exponential backoff
    as server errors.  A failed [session.get] (connection error or
    timeout), and also a response whose body is read but has the wrong
    content type, makes the client sleep 2^attempt seconds and retry when
    the attempt is not the last.  So [k] such failures followed by a 200
    response, with [k] below [max_retries], give the sleeps 2, ..., 2^k and
    the body; [max_retries] failures in a row raise the last failure itself,
    after the sleeps 2, ..., 2^(max_retries-1). *)
Theorem transport_failure_backoff (self : RickAndMortyClient)
    (endpoint : string) (failures tail : list outcome) (hdr : option string)
    (j : json) (req : list string) (sl : list Z) :
  session self = true ->
  Forall (fun o => is_Some (transport_failure o)) failures ->
  let k := length failures in
  let url := url_of endpoint in
  ((Z.of_nat k < max_retries self)%Z ->
     _make_request self endpoint
       (mkWorld (failures ++ Response 200 hdr (Json j) :: tail) req sl)
     = (Ret j, mkWorld tail (req ++ repeat url (S k)) (sl ++ backoffs 1 k))) /\
  (forall o e,
     (Z.of_nat k + 1 = max_retries self)%Z -> transport_failure o = Some e ->
     _make_request self endpoint (mkWorld (failures ++ o :: tail) req sl)
     = (Raise (ClientError e),
        mkWorld tail (req ++ repeat url (S k)) (sl ++ backoffs 1 k))).
Proof.
  intros Hs Hall. cbn zeta.
  destruct (make_request_loop self endpoint Hs) as [rid Hreq].
  split.
  - intros Hk. rewrite Hreq.
    replace (Z.to_nat (max_retries self))
      with (length failures + S (Z.to_nat (max_retries self) - S (length failures)))%nat
      by lia.
    rewrite run_failures by (assumption || lia).
    rewrite (step_200 _ _ _ _ _ _ _ hdr j tail) by reflexivity.
    unfold answered. cbn [requested sleeps].
    rewrite <- app_assoc, <- repeat_cons. reflexivity.
  - intros o e Hk Ho. rewrite Hreq.
    replace (Z.to_nat (max_retries self)) with (length failures + 1)%nat by lia.
    rewrite run_failures by (assumption || lia).
    rewrite (step_failure _ _ _ _ _ _ _ o tail e) by (reflexivity || assumption).
    replace (1 + Z.of_nat (length failures) <? max_retries self)%Z with false
      by (symmetry; apply Z.ltb_ge; lia).
    unfold answered. cbn [requested sleeps].
    rewrite <- app_assoc, <- repeat_cons. reflexivity.
Qed.

Lemma transport_failure_backoff_witness :
  _make_request default_client "episode/2"
    (start [Failure ConnectionFailed; Response 200 None NotJson;
            Failure Timeout; Response 200 None (Json JNull)])
  = (Raise (ClientError Timeout),
     mkWorld [Response 200 None (Json JNull)]
       (repeat (url_of "episode/2") 3) [2; 4]%Z).
Proof.
  destruct (transport_failure_backoff default_client "episode/2"
              [Failure ConnectionFailed; Response 200 None NotJson]
              [Response 200 None (Json JNull)] None JNull [] [] eq_refl)
    as [_ H].
  - repeat constructor; eexists; reflexivity.
  - apply (H (Failure Timeout) Timeout); reflexivity.
Defined.

(** ** Failures that are not retried *)

(** X9: failures that end the request at once, on whatever attempt they
    come, after a single call and no sleep.  A status other than 200, 404,
    429 and 5xx raises APIError with that status and the "error" entry of
    the body, or "Unknown error" when the body has none; when the body is
    JSON but not an object the lookup itself fails with AttributeError; a
    body that does not decode raises ValueError; and so does a 429 whose
    Retry-After header is not an integer. *)
Theorem unretried_failures (self : RickAndMortyClient) (endpoint : string)
    (st : Z) (hdr : option string) (body : payload) (rest : list outcome)
    (req : list string) (sl : list Z) :
  session self = true -> (1 <= max_retries self)%Z ->
  let w := mkWorld (Response st hdr body :: rest) req sl in
  let after := mkWorld rest (req ++ [url_of endpoint]) sl in
  (other_status st = true -> forall fields, body = Json (JObj fields) ->
     _make_request self endpoint w
     = (Raise (APIError st (default (JStr "Unknown error") (assoc "error" fields))),
        after)) /\
  (other_status st = true -> forall j, body = Json j ->
     (forall fields, j <> JObj fields) ->
     _make_request self endpoint w = (Raise AttributeError, after)) /\
  (other_status st = true \/ st = 200%Z -> body = BadJson ->
     _make_request self endpoint w = (Raise ValueError, after)) /\
  (st = 429%Z -> forall s, hdr = Some s -> py_int s = None ->
     _make_request self endpoint w = (Raise ValueError, after)).
Proof.
  intros Hs Hmax. cbn zeta.
  destruct (make_request_loop self endpoint Hs) as [rid Hreq].
  rewrite !Hreq.
  replace (Z.to_nat (max_retries self))
    with (S (Z.to_nat (max_retries self) - 1)) by lia.
  set (n := (Z.to_nat (max_retries self) - 1)%nat).
  set (w := mkWorld (Response st hdr body :: rest) req sl).
  set (after := mkWorld rest (req ++ [url_of endpoint]) sl).
  assert (Hother : other_status st = true ->
    attempts self (url_of endpoint) (resource_type_of endpoint) rid (S n) 1 w
    = with_json body
        (on_client_error self 1
           (attempts self (url_of endpoint) (resource_type_of endpoint) rid n (1 + 1)))
        (fun error_data =>
           let* error_message :=
             or_raise AttributeError
               (py_get error_data "error" (JStr "Unknown error")) in
           raise (APIError st error_message)) after).
  { intros Ho. unfold other_status in Ho. apply negb_true_iff in Ho.
    cbn [attempts]. unfold bind at 1, session_get. cbn [script w].
    destruct (st =? 429)%Z; [discriminate|].
    destruct (st =? 404)%Z; [discriminate|].
    destruct ((500 <=? st)%Z && (st <? 600)%Z); [discriminate|].
    cbn [orb] in Ho. rewrite Ho. reflexivity. }
  split; [|split; [|split]].
  - intros Ho fields ->. rewrite (Hother Ho). reflexivity.
  - intros Ho j -> Hj. rewrite (Hother Ho). cbn [with_json].
    destruct j; try reflexivity. exfalso. eapply Hj. reflexivity.
  - intros Ho ->. destruct Ho as [Ho| ->]; [|reflexivity].
    rewrite (Hother Ho). reflexivity.
  - intros -> s -> Hbad. cbn [attempts]. unfold bind at 1, session_get.
    cbn [script w Z.eqb Pos.eqb retry_after_of]. rewrite Hbad. reflexivity.
Qed.

Lemma unretried_failures_witness :
  _make_request default_client "character/1"
    (start [Response 400 None (Json (JObj [("error", JStr "Hey! you must provide an id")]));
            Response 200 None (Json JNull)])
  = (Raise (APIError 400 (JStr "Hey! you must provide an id")),
     mkWorld [Response 200 None (Json JNull)] [url_of "character/1"] []) /\
  _make_request default_client "character/1"
    (start [Response 429 (Some "Wed, 21 Oct 2015 07:28:00 GMT") NotJson])
  = (Raise ValueError, mkWorld [] [url_of "character/1"] []).
Proof.
  split.
  - destruct (unretried_failures default_client "character/1" 400 None
                (Json (JObj [("error", JStr "Hey! you must provide an id")]))
                [Response 200 None (Json JNull)] [] [] eq_refl) as (H & _);
      [cbn; lia|].
    exact (H eq_refl _ eq_refl).
  - destruct (unretried_failures default_client "character/1" 429
                (Some "Wed, 21 Oct 2015 07:28:00 GMT") NotJson [] [] []
                eq_refl) as (_ & _ & _ & H); [cbn; lia|].
    apply (H eq_refl _ eq_refl). reflexivity.
Defined.

(** ** Where requests go *)

Lemma extends_ret {A} (a : A) : extends (ret a).
Proof. intros w. exists []. cbn. rewrite app_nil_r. auto. Qed.

Lemma extends_raise {A} (e : exn) : extends (@raise A e).
Proof. intros w. exists []. cbn. rewrite app_nil_r. auto. Qed.

Lemma extends_stuck {A} : extends (@stuck A).
Proof. intros w. exists []. cbn. rewrite app_nil_r. auto. Qed.

Lemma extends_or_raise {A} (e : exn) (o : option A) : extends (or_raise e o).
Proof. destruct o; [apply extends_ret|apply extends_raise]. Qed.

Lemma extends_bind {A B} (m : M A) (k : A -> M B) :
  extends m -> (forall a, extends (k a)) -> extends (bind m k).
Proof.
  intros Hm Hk w. unfold bind. destruct (Hm w) as (u1 & E1 & F1).
  destruct (m w) as [[a|e|] w1]; cbn [snd] in *.
  - destruct (Hk a w1) as (u2 & E2 & F2). exists (u1 ++ u2)%list.
    rewrite E2, E1, <- app_assoc. split; [reflexivity|].
    apply Forall_app. auto.
  - exists u1. auto.
  - exists u1. auto.
Qed.

Lemma confined_url (endpoint : string) : confined (url_of endpoint) = true.
Proof.
  unfold confined.
  change (url_of endpoint) with ((BASE_URL ++ "/") ++ endpoint).
  apply prefix_app.
Qed.

Lemma extends_make_request (self : RickAndMortyClient) (endpoint : string) :
  extends (_make_request self endpoint).
Proof.
  intros w. destruct (_make_request self endpoint w) as [r w'] eqn:E.
  apply make_request_spent in E as ((k & more & _ & (Hreq & _) & _) & _).
  exists (repeat (url_of endpoint) k). split; [exact Hreq|].
  apply List.Forall_forall. intros u Hu. apply repeat_spec in Hu. subst u.
  apply confined_url.
Qed.

(** What follows the request for a page in one turn of the loop of
    [get_all_resources] adds nothing but the requests of the later turns. *)
Ltac extends_turn later :=
  intros;
  apply extends_bind; [apply extends_or_raise|intros ?];
  match goal with |- extends (if ?c then _ else _) => destruct c end;
  [apply extends_ret|];
  apply extends_bind; [apply extends_or_raise|intros ?];
  apply extends_bind; [apply extends_or_raise|intros ?];
  apply extends_bind; [apply extends_or_raise|intros ?];
  let next_page := fresh "next_page" in
  apply extends_bind; [apply extends_or_raise|intros next_page];
  destruct (truthy next_page); [|apply extends_ret];
  destruct next_page; try apply extends_raise; apply later.

Lemma extends_pages (self : RickAndMortyClient) (fuel : nat) :
  forall (acc : list json) (endpoint : string),
    extends (pages self fuel acc endpoint).
Proof.
  induction fuel as [|fuel IH]; intros acc endpoint; cbn [pages];
    destruct (String.eqb endpoint ""); try apply extends_ret;
    [apply extends_stuck|].
  apply extends_bind; [apply extends_make_request|].
  extends_turn IH.
Qed.

(** The first request of a computation is also the first request of what
    is run after it. *)
Lemma bind_first {A B} (m : M A) (k : A -> M B) (w : world) (u : string) :
  (forall a, extends (k a)) ->
  (exists more, requested (m w).2 = (requested w ++ u :: more)%list) ->
  exists more, requested (bind m k w).2 = (requested w ++ u :: more)%list.
Proof.
  intros Hk [more E]. unfold bind.
  destruct (m w) as [[a|e|] w1]; cbn [snd] in *; try (exists more; exact E).
  destruct (Hk a w1) as (urls & E' & _). exists (more ++ urls)%list.
  rewrite E', E, <- app_assoc. reflexivity.
Qed.

(** With a session, a positive [max_retries] and an outcome to read, a
    logical request starts with a request for the URL of its endpoint. *)
Lemma make_request_first (self : RickAndMortyClient) (endpoint : string)
    (w : world) :
  session self = true -> (1 <= max_retries self)%Z -> script w <> [] ->
  exists more,
    requested (_make_request self endpoint w).2
    = (requested w ++ url_of endpoint :: more)%list.
Proof.
  intros Hs Hmax Hw. destruct (_make_request self endpoint w) as [r w'] eqn:E.
  apply make_request_spent in E
    as ((k & more & _ & (Hreq & _) & _ & _ & Hfirst) & _).
  specialize (Hfirst Hs Hmax Hw). destruct k as [|k]; [lia|].
  exists (repeat (url_of endpoint) k). exact Hreq.
Qed.

(** X10: the text of the URLs the client requests.  Whatever the responses
    say, [_make_request] and [get_all_resources] only add requests to the
    log, and every URL they pass to [session.get] is the base URL, a slash
    and an endpoint, so it starts with the base URL followed by a slash.
    In particular a "next" link is not requested as given: the base URL and
    its slash are deleted from it and the rest is appended to the base URL,
    so a link that does not contain them, such as a link to another host,
    is requested as the base URL, a slash and the whole link.  (This is
    about the URL text given to [session.get]; the redirects and the dot
    segments the HTTP library may resolve are not part of the model.) *)
Theorem requested_urls_start_with_base_url (self : RickAndMortyClient)
    (fuel : nat) (endpoint : string) (w : world) :
  (exists urls,
     requested (_make_request self endpoint w).2 = (requested w ++ urls)%list /\
     Forall (fun u => String.prefix "https://rickandmortyapi.com/api/" u = true) urls) /\
  (exists urls,
     requested (get_all_resources self fuel endpoint w).2
     = (requested w ++ urls)%list /\
     Forall (fun u => String.prefix "https://rickandmortyapi.com/api/" u = true) urls) /\
  (forall h d o rest its link,
     session self = true -> (1 <= max_retries self)%Z -> endpoint <> "" ->
     script w = Response 200 h (Json d) :: o :: rest ->
     page_of d = Some (its, JStr link) -> link <> "" ->
     contains "https://rickandmortyapi.com/api/" link = false ->
     exists more,
       requested (get_all_resources self (S (S fuel)) endpoint w).2
       = (requested w
          ++ ("https://rickandmortyapi.com/api/" ++ endpoint)%string
          :: ("https://rickandmortyapi.com/api/" ++ link)%string :: more)%list).
Proof.
  split; [|split].
  - apply extends_make_request.
  - destruct (extends_pages self fuel [] endpoint w) as (urls & E & F).
    exists urls. split; [|exact F].
    unfold get_all_resources, except_not_found.
    destruct (pages self fuel [] endpoint w) as [[a|e|] w1]; try exact E.
    destruct e; exact E.
  - intros h d o rest its link Hs Hmax Hne Hw Hpage Hlink Hforeign.
    assert (E : exists more,
              requested (pages self (S (S fuel)) [] endpoint w).2
              = (requested w ++ url_of endpoint :: url_of link :: more)%list).
    { rewrite (pages_step self Hs Hmax _ _ _ _ h d (o :: rest) its (JStr link))
        by assumption.
      assert (Ht : truthy (JStr link) = true).
      { cbn [truthy]. apply negb_true_iff, String.eqb_neq. exact Hlink. }
      rewrite Ht. unfold replace.
      change (BASE_URL ++ "/" =? "")%string with false. cbv iota.
      rewrite (replace_from_absent _ _ _ Hforeign).
      cbn [pages]. apply String.eqb_neq in Hlink. rewrite Hlink.
      destruct (bind_first (_make_request self link)
                  (fun data =>
                     let* has_results := or_raise TypeError (py_in "results" data) in
                     if negb has_results then ret ([] ++ its)%list
                     else
                       let* results := or_raise AttributeError
                                         (py_get data "results" (JArr [])) in
                       let* all_resources := or_raise TypeError
                                               (py_extend ([] ++ its)%list results) in
                       let* info := or_raise AttributeError
                                      (py_get data "info" (JObj [])) in
                       let* next_page := or_raise AttributeError
                                           (py_get info "next" JNull) in
                       if truthy next_page then
                         match next_page with
                         | JStr link' =>
                             pages self fuel all_resources
                               (replace (BASE_URL ++ "/") "" link')
                         | _ => raise AttributeError
                         end
                       else ret all_resources)
                  (answered (url_of endpoint) w (o :: rest)) (url_of link))
        as [more E].
      - extends_turn (extends_pages self fuel).
      - apply make_request_first; [assumption..|discriminate].
      - exists more. rewrite E. unfold answered. cbn [requested].
        rewrite <- app_assoc. reflexivity. }
    destruct E as [more E]. exists more.
    unfold get_all_resources, except_not_found.
    destruct (pages self (S (S fuel)) [] endpoint w) as [[a|e|] w1];
      try exact E.
    destruct e; exact E.
Qed.

Lemma requested_urls_start_with_base_url_witness :
  exists more,
    requested
      (get_all_resources default_client 2 "character"
         (start [Response 200 None
                   (Json (JObj [("info", JObj [("next", JStr "https://example.org/api/character?page=2")]);
                                ("results", JArr [JObj [("id", JNum 1)]])]));
                 Response 404 None NotJson])).2
    = ([] ++ "https://rickandmortyapi.com/api/character"
          :: "https://rickandmortyapi.com/api/https://example.org/api/character?page=2"
          :: more)%list.
Proof.
  destruct (requested_urls_start_with_base_url default_client 0 "character"
              (start [Response 200 None
                        (Json (JObj [("info", JObj [("next", JStr "https://example.org/api/character?page=2")]);
                                     ("results", JArr [JObj [("id", JNum 1)]])]));
                      Response 404 None NotJson])) as (_ & _ & H).
  apply (H None
           (JObj [("info", JObj [("next", JStr "https://example.org/api/character?page=2")]);
                  ("results", JArr [JObj [("id", JNum 1)]])])
           (Response 404 None NotJson) [] [JObj [("id", JNum 1)]]
           "https://example.org/api/character?page=2");
    try reflexivity; (cbn; lia) || discriminate.
Defined.

(** ** Errors during pagination and empty filters *)

(** X11: only NotFoundError is swallowed by [get_all_resources].  When the
    request for any page, after pages that were read, ends with another
    error (ServerError, RateLimitError, APIError, a transport error, ...),
    that error leaves [get_all_resources] unchanged and the results read so
    far are lost. *)
Theorem later_page_error_propagates (self : RickAndMortyClient)
    (first : string) (ps : list page) (tail : list outcome)
    (req : list string) (sl : list Z) (fuel : nat) (e : exn) (w2 : world) :
  session self = true -> (1 <= max_retries self)%Z -> first <> "" ->
  Forall well_formed ps -> (length ps < fuel)%nat ->
  (forall t i, e <> NotFoundError t i) ->
  _make_request self (cursor first ps)
    (mkWorld tail (req ++ map url_of (visited first ps)) sl) = (Raise e, w2) ->
  get_all_resources self fuel first (mkWorld (map response_of ps ++ tail) req sl)
  = (Raise e, w2).
Proof.
  intros Hs Hmax Hne Hall Hfuel He Hreq.
  unfold get_all_resources, except_not_found.
  replace fuel with (length ps + S (fuel - length ps - 1))%nat by lia.
  destruct (pages_walk self Hs Hmax tail ps (S (fuel - length ps - 1)) []
              first req sl Hne Hall) as [-> Hcur].
  cbn [pages]. apply String.eqb_neq in Hcur. rewrite Hcur.
  unfold bind at 1. rewrite Hreq.
  destruct e; try reflexivity. exfalso. eapply He. reflexivity.
Qed.

Lemma later_page_error_propagates_witness :
  get_all_resources default_client 4 "character"
    (start [Response 200 None
              (Json (collection_body
                       (JStr "https://rickandmortyapi.com/api/character?page=2")
                       (numbered 1 20)));
            Response 500 None NotJson; Response 500 None NotJson;
            Response 500 None NotJson])
  = (Raise ServerError,
     mkWorld [] [url_of "character"; url_of "character?page=2";
                 url_of "character?page=2"; url_of "character?page=2"]
       [2; 4]%Z).
Proof.
  apply (later_page_error_propagates default_client "character"
           [mkPage None
              (collection_body
                 (JStr "https://rickandmortyapi.com/api/character?page=2")
                 (numbered 1 20))
              (numbered 1 20) "character?page=2"]
           [Response 500 None NotJson; Response 500 None NotJson;
            Response 500 None NotJson] [] [] 4 ServerError).
  - reflexivity.
  - cbn; lia.
  - discriminate.
  - repeat constructor; try discriminate; reflexivity.
  - cbn; lia.
  - discriminate.
  - vm_compute. reflexivity.
Defined.

Lemma query_params_all_none (items : list (string * filter_value)) :
  Forall (fun kv => kv.2 = FNone) items -> query_params items = "".
Proof.
  intros Hall. unfold query_params.
  replace (List.filter (fun kv => is_not_None kv.2) items) with
    (@nil (string * filter_value)); [reflexivity|].
  induction Hall as [|[k v] items Hv _ IH]; [reflexivity|].
  cbn [snd] in Hv. subst v. cbn [List.filter is_not_None snd]. exact IH.
Qed.

(** X12: filters that carry nothing are no filters.  When the mapping is
    absent, empty, or has only [None] values, [get_characters],
    [get_locations] and [get_episodes] request the bare collection, exactly
    as [get_all_resources] does on the resource type. *)
Theorem empty_filters_are_no_filters (self : RickAndMortyClient) (fuel : nat)
    (items : list (string * filter_value)) :
  Forall (fun kv => kv.2 = FNone) items ->
  get_characters self fuel (Some items) = get_all_resources self fuel "character" /\
  get_locations self fuel (Some items) = get_all_resources self fuel "location" /\
  get_episodes self fuel (Some items) = get_all_resources self fuel "episode" /\
  get_characters self fuel None = get_all_resources self fuel "character" /\
  get_locations self fuel None = get_all_resources self fuel "location" /\
  get_episodes self fuel None = get_all_resources self fuel "episode".
Proof.
  intros Hall.
  assert (E : forall base, filtered_endpoint base (Some items) = base).
  { intros base. unfold filtered_endpoint.
    destruct items as [|kv items']; [reflexivity|].
    rewrite (query_params_all_none _ Hall). reflexivity. }
  unfold get_characters, get_locations, get_episodes. rewrite !E.
  repeat split.
Qed.

Lemma empty_filters_are_no_filters_witness :
  get_characters default_client 3
    (Some [("name", FNone); ("status", FNone); ("species", FNone)])
  = get_all_resources default_client 3 "character".
Proof.
  destruct (empty_filters_are_no_filters default_client 3
              [("name", FNone); ("status", FNone); ("species", FNone)])
    as (H & _).
  - repeat constructor.
  - exact H.
Defined.

End ClientExtras.

(** * Properties of the service *)

Module ServiceFacts.
Import Clock RateLimiter Traces Py Client ClientTerms Service.
Import RateLimiterFacts RateLimiterExtras PyFacts ClientFacts ClientExtras.
Local Open Scope string_scope.

(** ** The rate-limiting middleware *)

(** X13: [/health] is served without consulting the limiter, whatever its
    state.  On any other path a limited client gets the 429 response with
    [Retry-After: 60] and the application is not run; an admitted client
    gets the application's response.  The advertised delay is enough: when
    the key holds no timestamp in the future and the limit is at least 1,
    the same client asking again 60 seconds or more after the clock
    readings of this request is let through to the application. *)
Theorem middleware_policy {S : Type} (now c : Q) (ip path : string)
    (call_next : S -> http_response * S) (limiter : SimpleRateLimiter)
    (app : S) :
  let out := rate_limiting_middleware now c ip path call_next (limiter, app) in
  let limited := is_rate_limited now c ip limiter in
  (path = "/health" ->
     out = ((call_next app).1, (limiter, (call_next app).2))) /\
  (path <> "/health" -> limited.1 = true ->
     out = (too_many_requests, (limited.2, app)) /\
     retry_after_of (assoc "Retry-After" (headers out.1)) = Some 60%Z) /\
  (path <> "/health" -> limited.1 = false ->
     out = ((call_next app).1, (limited.2, (call_next app).2))) /\
  (path <> "/health" -> (1 <= requests_per_minute limiter)%Z ->
     (now <= c)%Q -> List.Forall (fun ts => (ts <= now)%Q) (stored limiter ip) ->
     forall now' c', (c + 60 <= now')%Q ->
       (rate_limiting_middleware now' c' ip path call_next out.2).1
       = (call_next out.2.2).1).
Proof.
  cbn zeta. unfold rate_limiting_middleware. cbn [fst snd].
  split; [|split; [|split]].
  - intros ->. reflexivity.
  - intros Hp Hl. apply String.eqb_neq in Hp. rewrite Hp, Hl.
    split; reflexivity.
  - intros Hp Hl. apply String.eqb_neq in Hp. rewrite Hp, Hl. reflexivity.
  - intros Hp Hlim Hc Hup now' c' Hwait.
    apply String.eqb_neq in Hp. rewrite Hp.
    pose proof (waiting_admits limiter ip [(now, c, ip)] now now' c' Hlim)
      as Hnext.
    cbn [monotone last_reading run] in Hnext.
    assert (Hadmit : (is_rate_limited now' c' ip
                        (is_rate_limited now c ip limiter).2).1 = false).
    { apply Hnext; [repeat split; [lra|exact Hc]|exact Hup|exact Hwait]. }
    destruct (is_rate_limited now c ip limiter).1; cbn [fst snd];
      rewrite Hadmit; reflexivity.
Qed.

Lemma middleware_policy_witness :
  let ip := "203.0.113.7"%string in
  let app (n : nat) := (mkResponse 200 JNull [], S n) in
  let full := (calls_at 0 ip (repeat 0%Q 30) rate_limiter).2 in
  (rate_limiting_middleware 10 10 ip "/characters" app (full, 0%nat)).1
  = too_many_requests /\
  (rate_limiting_middleware 70 70 ip "/characters" app
     (rate_limiting_middleware 10 10 ip "/characters" app (full, 0%nat)).2).1
  = mkResponse 200 JNull [].
Proof.
  cbn zeta.
  pose proof (@middleware_policy nat 10 10 "203.0.113.7" "/characters"
                (fun n => (mkResponse 200 JNull [], S n))
                (calls_at 0 "203.0.113.7" (repeat 0%Q 30) rate_limiter).2 0%nat)
    as H.
  cbn zeta in H. destruct H as (_ & H1 & _ & H2). split.
  - destruct H1 as [-> _]; [discriminate|vm_compute; reflexivity|reflexivity].
  - apply H2; [discriminate|vm_compute; discriminate|lra| |lra].
    vm_compute. repeat constructor; discriminate.
Defined.

(** ** Exceptions of the client as responses *)

Lemma int_digits_of_digits (s : string) (d : Decimal.uint) :
  isdigit s = true -> NilEmpty.uint_of_string s = Some d ->
  int_digits s = Some (Z.of_uint d).
Proof.
  destruct s as [|c s]; [discriminate|]. cbn [isdigit all_digits].
  intros Hs Hd. apply andb_true_iff in Hs as [Hc Hs].
  unfold int_digits. cbn [ungroup].
  apply is_digit_plain in Hc as (_ & -> & _).
  rewrite (ungroup_digits _ Hs). cbn [fmap option_fmap option_map mbind option_bind].
  unfold NilZero.uint_of_string. rewrite Hd. reflexivity.
Qed.

(** [int] reads back the decimal text of every integer. *)
Lemma py_int_str_of_int (n : Z) : py_int (str_of_int n) = Some n.
Proof.
  destruct (Z.le_gt_cases 0 n) as [Hn|Hn]; [apply str_of_int_digits, Hn|].
  destruct n as [|p|p]; try lia.
  unfold str_of_int. cbn [Z.to_int NilZero.string_of_int].
  pose proof (Unsigned.to_uint_nonnil p) as Hnil.
  pose proof (DecimalZ.of_to (Z.neg p)) as Hback. cbn [Z.to_int Z.of_int] in Hback.
  set (d := Pos.to_uint p) in *.
  assert (Hs : NilZero.string_of_uint d = NilEmpty.string_of_uint d)
    by (destruct d; [contradiction|reflexivity..]).
  rewrite Hs. pose proof (all_digits_of_uint d) as Ha.
  assert (Hi : isdigit (NilEmpty.string_of_uint d) = true)
    by (destruct d; [contradiction|exact Ha..]).
  unfold py_int, strip. cbn [lstrip]. change (is_space "-") with false.
  cbn [rstrip]. rewrite (rstrip_digits _ Ha).
  pose proof (int_digits_of_digits _ d Hi (NilEmpty.usu d)) as Hgo.
  destruct (NilEmpty.string_of_uint d) as [|c r] eqn:E; [discriminate|].
  cbn beta iota. rewrite Hgo. cbn [fmap option_fmap option_map].
  rewrite Hback. reflexivity.
Qed.

(** X14: how the failures of the client reach the caller.  A handler
    answers exactly the exceptions of the APIError family.  The response
    has the status and the message of the exception, except for
    ServerError, which is reported as 503 with a text of its own instead of
    its status 500.  The Retry-After header of the 429 response is the
    delay of the RateLimitError in a form that the client's own reading of
    that header gives back, for every integer. *)
Theorem typed_errors_as_responses (e : exn) :
  (exception_response e = None <-> status_code e = None) /\
  (forall resp, exception_response e = Some resp -> e <> ServerError ->
     Some (http_status resp) = status_code e /\
     Some (content resp) = detail <$> message e) /\
  (forall resp, exception_response ServerError = Some resp ->
     http_status resp = 503%Z /\ status_code ServerError = Some 500%Z /\
     Some (content resp) <> detail <$> message ServerError) /\
  (forall ra resp, exception_response (RateLimitError ra) = Some resp ->
     retry_after_of (assoc "Retry-After" (headers resp)) = Some ra).
Proof.
  split; [|split; [|split]].
  - destruct e; cbn; split; congruence.
  - intros resp H Hne. destruct e; cbn in H; try discriminate;
      try congruence; injection H as <-; cbn; auto.
    destruct resource_id; auto.
  - intros resp [= <-]. cbn. repeat split. discriminate.
  - intros ra resp [= <-]. cbn [headers assoc]. cbn [String.eqb Ascii.eqb Bool.eqb].
    cbn [retry_after_of]. apply py_int_str_of_int.
Qed.

Lemma typed_errors_as_responses_witness :
  retry_after_of
    (assoc "Retry-After"
       [("Retry-After", str_of_int (-3))]) = Some (-3)%Z.
Proof.
  destruct (typed_errors_as_responses (RateLimitError (-3))) as (_ & _ & _ & H).
  apply (H (-3)%Z (mkResponse 429
                     (detail (JStr "Rate limit exceeded. Try again in -3 seconds"))
                     [("Retry-After", str_of_int (-3))])).
  reflexivity.
Defined.

(** ** The routes for one resource *)

(** X15: the routes [/characters/{id}], [/locations/{id}] and
    [/episodes/{id}].  An id of zero or less is refused with status 400
    before the cache or upstream is touched.  A true cached value is
    returned without any upstream request.  Otherwise upstream is asked:
    a 200 response is returned and handed to [set_cache] under
    ["<kind>:<id>"]; a 404 leaves the route as NotFoundError, which the
    handler turns into status 404 with the text
    ["<kind> with ID <id> not found"].  Whatever upstream does, nothing is
    handed to [set_cache] unless the route returns it. *)
Theorem id_route_outcomes (kind Kind : string) (id : Z) (s : service) :
  let fetch := fun self n => _make_request self (kind ++ "/" ++ str_of_int n) in
  let route := id_route fetch kind Kind in
  let key := kind ++ ":" ++ str_of_int id in
  (character_route = id_route (fun self n => _make_request self ("character" ++ "/" ++ str_of_int n)) "character" "Character" /\
   location_route = id_route (fun self n => _make_request self ("location" ++ "/" ++ str_of_int n)) "location" "Location" /\
   episode_route = id_route (fun self n => _make_request self ("episode" ++ "/" ++ str_of_int n)) "episode" "Episode") /\
  ((id <= 0)%Z ->
     route id s = (HTTPException 400 (JStr (Kind ++ " ID must be positive")), s)) /\
  ((0 < id)%Z -> truthy (cache s key) = true ->
     route id s = (Returned (cache s key), s)) /\
  ((0 < id)%Z -> truthy (cache s key) = false ->
     forall h j rest req sl,
       net s = mkWorld (Response 200 h (Json j) :: rest) req sl ->
       route id s
       = (Returned j,
          mkService (mkWorld rest (req ++ [url_of (kind ++ "/" ++ str_of_int id)]) sl)
            (cache s) (cache_writes s ++ [(key, j)]))) /\
  ((0 < id)%Z -> truthy (cache s key) = false -> absent "/" kind = true ->
     forall h b rest req sl,
       net s = mkWorld (Response 404 h b :: rest) req sl ->
       route id s
       = (Propagated (NotFoundError kind (Some id)),
          mkService (mkWorld rest (req ++ [url_of (kind ++ "/" ++ str_of_int id)]) sl)
            (cache s) (cache_writes s)) /\
       exception_response (NotFoundError kind (Some id))
       = Some (mkResponse 404
                 (detail (JStr (kind ++ " with ID " ++ str_of_int id ++ " not found")))
                 [])) /\
  (cache_writes (route id s).2 = cache_writes s \/
   exists data, (route id s).1 = Returned data /\
                cache_writes (route id s).2 = (cache_writes s ++ [(key, data)])%list).
Proof.
  cbn zeta. unfold id_route.
  split; [repeat split|].
  split; [intros Hid; apply Z.leb_le in Hid; rewrite Hid; reflexivity|].
  split.
  { intros Hid Hc. apply Z.leb_gt in Hid. rewrite Hid, Hc. reflexivity. }
  split.
  { intros Hid Hc h j rest req sl Hnet. apply Z.leb_gt in Hid. rewrite Hid, Hc.
    rewrite (make_request_200 default_client eq_refl ltac:(cbn; lia)
               (kind ++ "/" ++ str_of_int id) (net s) h j rest)
      by (rewrite Hnet; reflexivity).
    unfold answered. rewrite Hnet. reflexivity. }
  split.
  { intros Hid Hc Hk h b rest req sl Hnet. split; [|reflexivity].
    apply Z.leb_gt in Hid. rewrite Hid, Hc.
    rewrite (fetch_one_404 default_client kind id (net s) h b rest eq_refl)
      by (cbn; lia || assumption || lia || (rewrite Hnet; reflexivity)).
    unfold answered. rewrite Hnet. reflexivity. }
  destruct (id <=? 0)%Z; [left; reflexivity|].
  destruct (truthy _); [left; reflexivity|].
  destruct (_make_request _ _ _) as [[data|e|] w]; cbn [fst snd cache_writes];
    [right; exists data; auto|left; reflexivity|left; reflexivity].
Qed.

Lemma id_route_outcomes_witness :
  episode_route 28
    (mkService (start [Response 200 None (Json (JObj [("id", JNum 28)]))])
       (fun _ => JNull) [])
  = (Returned (JObj [("id", JNum 28)]),
     mkService (mkWorld [] [url_of "episode/28"] []) (fun _ => JNull)
       [("episode:28", JObj [("id", JNum 28)])]).
Proof.
  destruct (id_route_outcomes "episode" "Episode" 28
              (mkService (start [Response 200 None (Json (JObj [("id", JNum 28)]))])
                 (fun _ => JNull) [])) as (_ & _ & _ & H & _).
  apply (H ltac:(lia) eq_refl None (JObj [("id", JNum 28)]) [] [] []).
  reflexivity.
Defined.

(** ** The list routes *)

Lemma first_page_404 (endpoint : string) (fuel : nat) (h : option string)
    (b : payload) (rest : list outcome) (req : list string) (sl : list Z) :
  endpoint <> "" ->
  get_all_resources default_client (S fuel) endpoint
    (mkWorld (Response 404 h b :: rest) req sl)
  = (Ret [], mkWorld rest (req ++ [url_of endpoint]) sl).
Proof.
  intros Hne. unfold get_all_resources, except_not_found. cbn [pages].
  apply String.eqb_neq in Hne. rewrite Hne.
  destruct (make_request_404 default_client eq_refl ltac:(cbn; lia) endpoint
              (mkWorld (Response 404 h b :: rest) req sl) h b rest eq_refl)
    as [rid Hreq].
  unfold bind at 1. rewrite Hreq. reflexivity.
Qed.

Lemma filtered_endpoint_nonempty (base : string)
    (filters : option (list (string * filter_value))) :
  base <> "" -> filtered_endpoint base filters <> "".
Proof.
  intros Hb. unfold filtered_endpoint.
  destruct filters as [[|kv items]|]; try exact Hb.
  destruct (String.eqb _ ""); [exact Hb|].
  destruct base; [congruence|discriminate].
Qed.

(** X16: the list routes [/characters], [/locations] and [/episodes].
    Filters that fail validation are refused with status 400 and the list
    of messages, before the cache or upstream is touched.  No exception of
    the client ever leaves a list route: whatever the client raises
    becomes the HTTPException 500 "Failed to fetch <kinds>", with nothing
    handed to [set_cache], so the handlers for 404, 429 and 503 never
    answer for these routes.  When upstream answers the first page with
    404 the route returns the empty list and hands it to [set_cache]; an
    empty list read back from the cache counts as a miss. *)
Theorem list_route_outcomes
    (json_dumps : list (string * filter_value) -> string)
    (fetch : RickAndMortyClient -> nat -> option (list (string * filter_value))
             -> M (list json))
    (kinds : string) (fuel : nat) (filters : list (string * filter_value))
    (name status species : option string) (page : Z) (s : service) :
  let route := list_route json_dumps fetch kinds fuel filters in
  (forall errors,
     validate_character_filters name status species page = inl errors ->
     characters_route json_dumps fuel name status species page s
     = (HTTPException 400 (JObj [("errors", JArr (map JStr errors))]), s)) /\
  (forall e, (route s).1 <> Propagated e) /\
  (forall e w,
     truthy (cache s (kinds ++ ":" ++ json_dumps filters)) = false ->
     fetch default_client fuel (Some filters) (net s) = (Raise e, w) ->
     route s = (HTTPException 500 (JStr ("Failed to fetch " ++ kinds)),
                mkService w (cache s) (cache_writes s))) /\
  (forall validated h b rest req sl,
     validate_character_filters name status species page = inr validated ->
     truthy (cache s ("characters:" ++ json_dumps validated)) = false ->
     net s = mkWorld (Response 404 h b :: rest) req sl ->
     characters_route json_dumps (S fuel) name status species page s
     = (Returned (JArr []),
        mkService
          (mkWorld rest
             (req ++ [url_of (filtered_endpoint "character" (Some validated))]) sl)
          (cache s)
          (cache_writes s ++ [("characters:" ++ json_dumps validated, JArr [])])) /\
     truthy (JArr []) = false).
Proof.
  cbn zeta. split; [|split; [|split]].
  - intros errors Hv. unfold characters_route. rewrite Hv. reflexivity.
  - intros e. unfold list_route. destruct (truthy _); [discriminate|].
    destruct (fetch _ _ _ _) as [[data|e'|] w]; discriminate.
  - intros e w Hc Hf. unfold list_route. rewrite Hc, Hf. reflexivity.
  - intros validated h b rest req sl Hv Hc Hnet. split; [|reflexivity].
    change ("characters:" ++ json_dumps validated)
      with ("characters" ++ ":" ++ json_dumps validated) in *.
    unfold characters_route, list_route. rewrite Hv, Hc.
    unfold get_characters. rewrite Hnet, first_page_404; [reflexivity|].
    apply filtered_endpoint_nonempty. discriminate.
Qed.

Lemma list_route_outcomes_witness :
  let s := mkService
             (start [Response 429 (Some "1") NotJson; Response 429 (Some "1") NotJson;
                     Response 429 (Some "1") NotJson])
             (fun _ => JArr []) [] in
  locations_route (fun _ => "{}") 3 None None None 1 s
  = (HTTPException 500 (JStr "Failed to fetch locations"),
     mkService (mkWorld [] (repeat (url_of "location/?page=1") 3) [1; 1]%Z)
       (fun _ => JArr []) []).
Proof.
  cbn zeta.
  destruct (list_route_outcomes (fun _ => "{}") get_locations "locations" 3
              [("page", FInt 1)] None None None 1
              (mkService
                 (start [Response 429 (Some "1") NotJson;
                         Response 429 (Some "1") NotJson;
                         Response 429 (Some "1") NotJson])
                 (fun _ => JArr []) [])) as (_ & _ & H & _).
  apply (H (RateLimitError 1)); reflexivity.
Defined.

(** ** Validation of the character filters *)

Lemma known_status_values (st : string) :
  known_status st = true ->
  lower st = "alive" \/ lower st = "dead" \/ lower st = "unknown".
Proof.
  unfold known_status. cbn [existsb]. rewrite !orb_true_iff, !String.eqb_eq.
  intros [H|[H|[H|H]]]; auto. discriminate.
Qed.

Lemma not_too_long (o : option string) :
  too_long o = false ->
  forall s, o = Some s -> (String.length s <= 100)%nat.
Proof.
  intros H s ->. cbn [too_long] in H. apply andb_false_iff in H as [H|H].
  - apply negb_false_iff, String.eqb_eq in H. subst s. cbn. lia.
  - apply Nat.ltb_ge in H. exact H.
Qed.

(** X17: what [validate_character_filters] lets through.  An accepted
    mapping keeps the name, the species and the page as given, with name
    and species at most 100 characters long, and carries as status nothing
    or one of "alive", "dead", "unknown" in lower case, whatever the case of
    the input; validating the accepted values again accepts them and gives
    the same mapping. *)
Theorem validation_normalises (name status species : option string)
    (page : Z) (filters : list (string * filter_value)) :
  validate_character_filters name status species page = inr filters ->
  let status' := match assoc "status" filters with
                 | Some (FStr s) => Some s
                 | _ => None
                 end in
  (status' = None \/ status' = Some "alive" \/ status' = Some "dead"
   \/ status' = Some "unknown") /\
  validate_character_filters name status' species page = inr filters /\
  filters = [("name", optional name); ("status", optional status');
             ("species", optional species); ("page", FInt page)] /\
  (forall s, name = Some s \/ species = Some s -> (String.length s <= 100)%nat).
Proof.
  unfold validate_character_filters.
  destruct (too_long name) eqn:Hn; [discriminate|].
  assert (Hlen : too_long species = false ->
            forall s, name = Some s \/ species = Some s ->
                      (String.length s <= 100)%nat).
  { intros Hsp s [H|H];
      [exact (not_too_long name Hn s H)|exact (not_too_long species Hsp s H)]. }
  destruct status as [st|].
  - destruct (String.eqb st "") eqn:Hst; cbn [negb andb app].
    + destruct (too_long species) eqn:Hsp; [discriminate|].
      intros [= <-]. cbn. auto 10.
    + destruct (known_status st) eqn:Hk; cbn [negb app]; [|discriminate].
      destruct (too_long species) eqn:Hsp; [discriminate|].
      intros [= <-]. cbn [assoc String.eqb Ascii.eqb Bool.eqb optional].
      destruct (known_status_values st Hk) as [E|[E|E]]; rewrite E;
        cbn; auto 10.
  - cbn [app]. destruct (too_long species) eqn:Hsp; [discriminate|].
    intros [= <-]. cbn. auto 10.
Qed.

Lemma validation_normalises_witness :
  validate_character_filters (Some "Rick") (Some "alive") None 2
  = inr [("name", FStr "Rick"); ("status", FStr "alive"); ("species", FNone);
         ("page", FInt 2)].
Proof.
  destruct (validation_normalises (Some "Rick") (Some "AliVe") None 2
              [("name", FStr "Rick"); ("status", FStr "alive");
               ("species", FNone); ("page", FInt 2)] eq_refl) as (_ & H & _).
  exact H.
Defined.

Lemma append_assoc (a b c : string) : (a ++ b) ++ c = a ++ (b ++ c).
Proof.
  induction a as [|x a IH]; [reflexivity|].
  change (String x ((a ++ b) ++ c) = String x (a ++ (b ++ c))).
  rewrite IH. reflexivity.
Qed.

Lemma short_enough (s : string) :
  (String.length s <= 100)%nat -> too_long (Some s) = false.
Proof.
  intros H. cbn [too_long]. apply andb_false_iff. right.
  apply Nat.ltb_ge. exact H.
Qed.

(** X18: validation checks lengths only, so a name reaches upstream as it
    is.  A name of 1 to 100 characters is accepted whatever it contains and
    is copied into the query string without encoding.  Hence a name that
    ends in ["&status=dead"] (or another known status) makes the client
    request the very endpoint it requests for the shorter name together
    with that status, although the two validated mappings differ. *)
Theorem name_reaches_upstream_verbatim (name st : string) (page : Z) :
  name <> "" -> (String.length name <= 100)%nat ->
  let accepted n s := [("name", FStr n); ("status", s); ("species", FNone);
                       ("page", FInt page)] in
  validate_character_filters (Some name) None None page
  = inr (accepted name FNone) /\
  filtered_endpoint "character" (Some (accepted name FNone))
  = "character/?name=" ++ name ++ "&page=" ++ str_of_int page /\
  (st <> "" -> known_status st = true ->
   (String.length (name ++ "&status=" ++ lower st) <= 100)%nat ->
   validate_character_filters (Some (name ++ "&status=" ++ lower st)) None None page
   = inr (accepted (name ++ "&status=" ++ lower st) FNone) /\
   validate_character_filters (Some name) (Some st) None page
   = inr (accepted name (FStr (lower st))) /\
   accepted (name ++ "&status=" ++ lower st) FNone
   <> accepted name (FStr (lower st)) /\
   filtered_endpoint "character"
     (Some (accepted (name ++ "&status=" ++ lower st) FNone))
   = filtered_endpoint "character" (Some (accepted name (FStr (lower st))))).
Proof.
  intros Hne Hlen. cbn zeta.
  assert (Hv : forall n, (String.length n <= 100)%nat ->
            validate_character_filters (Some n) None None page
            = inr [("name", FStr n); ("status", FNone); ("species", FNone);
                   ("page", FInt page)]).
  { intros n Hn. unfold validate_character_filters.
    rewrite (short_enough n Hn). reflexivity. }
  assert (Hq : forall n, filtered_endpoint "character"
                 (Some [("name", FStr n); ("status", FNone); ("species", FNone);
                        ("page", FInt page)])
               = "character/?name=" ++ n ++ "&page=" ++ str_of_int page).
  { intros n. reflexivity. }
  split; [apply Hv, Hlen|]. split; [apply Hq|].
  intros Hst Hk Hlong. split; [apply Hv, Hlong|]. split; [|split].
  - unfold validate_character_filters. rewrite (short_enough name Hlen).
    apply String.eqb_neq in Hst. rewrite Hst, Hk. reflexivity.
  - congruence.
  - rewrite Hq.
    assert (E : filtered_endpoint "character"
                  (Some [("name", FStr name); ("status", FStr (lower st));
                         ("species", FNone); ("page", FInt page)])
                = "character/?name=" ++ name ++ "&status=" ++ lower st
                  ++ "&page=" ++ str_of_int page) by reflexivity.
    rewrite E, append_assoc. reflexivity.
Qed.

Lemma name_reaches_upstream_verbatim_witness :
  filtered_endpoint "character"
    (Some [("name", FStr "Rick&status=dead"); ("status", FNone);
           ("species", FNone); ("page", FInt 1)])
  = filtered_endpoint "character"
      (Some [("name", FStr "Rick"); ("status", FStr "dead");
             ("species", FNone); ("page", FInt 1)]).
Proof.
  destruct (name_reaches_upstream_verbatim "Rick" "DEAD" 1) as (_ & _ & H).
  - discriminate.
  - vm_compute. lia.
  - destruct H as (_ & _ & _ & H); [discriminate|reflexivity|vm_compute; lia|].
    exact H.
Defined.

End ServiceFacts.

(** * Properties of the session handling *)

Module LifecycleFacts.
Import Py Client Lifecycle.
Local Open Scope string_scope.

(** X20: who owns the session.  A client built without a session has none
    until it is entered: every request before that raises RuntimeError
    without touching the network.  Entering creates one fresh session and
    makes the client the one of the given settings with a session; leaving
    closes exactly that session.  A client built on a session of the caller
    can be used at once, creates no session when entered and closes none
    when left. *)
Theorem session_ownership (max_retries timeout : Z) (env : sessions) :
  let fresh := __init__ None max_retries timeout in
  let entered := __aenter__ fresh env in
  (forall endpoint w,
     _make_request (as_client fresh) endpoint w = (Raise RuntimeError, w)) /\
  (forall fuel resource_type w, resource_type <> "" ->
     get_all_resources (as_client fresh) (S fuel) resource_type w
     = (Raise RuntimeError, w)) /\
  as_client entered.1 = mkClient true max_retries timeout /\
  entered.2 = mkSessions (S (created env)) (closed env) /\
  __aexit__ entered.1 entered.2
  = mkSessions (S (created env)) (closed env ++ [created env]) /\
  (forall s : nat,
     let given := __init__ (Some s) max_retries timeout in
     as_client given = mkClient true max_retries timeout /\
     __aenter__ given env = (given, env) /\
     __aexit__ given env = env).
Proof.
  cbn zeta. repeat split.
  intros fuel resource_type w Hne. unfold get_all_resources, except_not_found.
  cbn [pages]. apply String.eqb_neq in Hne. rewrite Hne. reflexivity.
Qed.

Lemma session_ownership_witness :
  get_all_resources (as_client (__init__ None 3 10)) 1 "character"
    (start [Response 200 None (Json JNull)])
  = (Raise RuntimeError, start [Response 200 None (Json JNull)]).
Proof.
  destruct (session_ownership 3 10 (mkSessions 0 [])) as (_ & H & _).
  apply H. discriminate.
Defined.

End LifecycleFacts.
